(** * ascii-bomb-ecs-mp: the lobby form and the wasm bootstrap of [web/index.js]

  A shallow embedding of the script functions that carry logic,
  [startGame], [start_wasm], the two settings toggles and the canvas
  layout, over a model of the page they act on:
  JavaScript strings are sequences of UTF-16 code units, numbers are the
  results of [parseInt], the document is a finite map from element ids
  to elements, and the script's effects (dialogs, console output, calls
  into the wasm module) are recorded in order on a trace. *)

From Stdlib Require Import ZArith NArith Ascii String List Bool Lia.
From Stdlib Require PrimFloat Uint63.
From stdpp Require Import gmap strings list fin_maps.

Open Scope Z_scope.

(** ** JavaScript strings *)

Module JsString.

(** A string value is a sequence of 16-bit code units. *)
Abbreviation t := (list N).

(** A literal of the script, written with 7-bit characters only. *)
Definition lit (s : string) : t :=
  List.map (fun a => N.of_nat (nat_of_ascii a)) (list_ascii_of_string s).

(** WhiteSpace and LineTerminator code units, the ones that
    [String.prototype.trim] and [parseInt] strip. *)
Definition is_white_space (c : N) : bool :=
  ((9 <=? c) && (c <=? 13) || (c =? 32) || (c =? 160) || (c =? 5760)
   || (8192 <=? c) && (c <=? 8202) || (c =? 8232) || (c =? 8233)
   || (c =? 8239) || (c =? 8287) || (c =? 12288) || (c =? 65279))%N.

Fixpoint trim_start (s : t) : t :=
  match s with
  | c :: r => if is_white_space c then trim_start r else s
  | [] => []
  end.

Definition trim_end (s : t) : t := rev (trim_start (rev s)).

(** [s.trim()] *)
Definition trim (s : t) : t := trim_end (trim_start s).

(** [a === b] on strings *)
Definition strict_eq (a b : t) : bool := bool_decide (a = b).

Fixpoint starts_with (pat s : t) : bool :=
  match pat, s with
  | [], _ => true
  | p :: pat', c :: s' => (p =? c)%N && starts_with pat' s'
  | _ :: _, [] => false
  end.

(** [s.includes(pat)]: [pat] occurs at some position of [s]. *)
Fixpoint includes (s pat : t) : bool :=
  starts_with pat s ||
  match s with
  | [] => false
  | _ :: s' => includes s' pat
  end.

Definition is_digit (c : N) : bool := ((48 <=? c) && (c <=? 57))%N.

End JsString.

(** ** The room id pattern [/^([0-9]{4})$/] *)

Module RoomIdPattern.
Import JsString.

(** [[0-9]{n}] at the head of [s]: consumes exactly [n] digits and
    returns the rest, or fails. *)
Fixpoint digits_times (n : nat) (s : JsString.t) : option JsString.t :=
  match n with
  | O => Some s
  | S n' =>
      match s with
      | c :: r => if is_digit c then digits_times n' r else None
      | [] => None
      end
  end.

(** [/^([0-9]{4})$/.test(s)]: the pattern has no flags, so [^] only
    matches at the start of the input and [$] only at its end. *)
Definition test (s : JsString.t) : bool :=
  match digits_times 4 s with
  | Some [] => true
  | _ => false
  end.

End RoomIdPattern.

(** ** Numbers *)

Module Number.
Import JsString.

(** The values [parseInt] returns: [NaN] or an integer.  The integer is
    kept exact; a double rounds it beyond 2^53, which no comparison with
    2 or 8 can observe. *)
Inductive t := NaN | Int (z : Z).

(** [a < b] and [a > b]: every comparison with [NaN] is false. *)
Definition lt (a b : t) : bool :=
  match a, b with
  | Int x, Int y => x <? y
  | _, _ => false
  end.

Definition gt (a b : t) : bool := lt b a.

(** The value of a code unit as a digit of the given radix. *)
Definition digit_value (radix : Z) (c : N) : option Z :=
  let v :=
    if ((48 <=? c) && (c <=? 57))%N then Some (Z.of_N c - 48)
    else if ((97 <=? c) && (c <=? 122))%N then Some (Z.of_N c - 87)
    else if ((65 <=? c) && (c <=? 90))%N then Some (Z.of_N c - 55)
    else None in
  match v with
  | Some d => if d <? radix then Some d else None
  | None => None
  end.

(** The longest prefix of radix digits, read as an integer;
    [acc] is [None] until a first digit has been read. *)
Fixpoint parse_digits (radix : Z) (s : JsString.t) (acc : option Z)
  : option Z :=
  match s with
  | c :: r =>
      match digit_value radix c with
      | Some d => parse_digits radix r (Some (default 0 acc * radix + d))
      | None => acc
      end
  | [] => acc
  end.

(** [parseInt(s)] with no radix argument: leading white space is
    skipped, then an optional sign, then an optional [0x]/[0X] prefix
    that selects radix 16, then the digits; anything after them is
    ignored, and no digit at all gives [NaN]. *)
Definition parseInt (s : JsString.t) : t :=
  let s1 := trim_start s in
  let '(sign, s2) :=
    match s1 with
    | 45%N :: r => (-1, r)
    | 43%N :: r => (1, r)
    | _ => (1, s1)
    end in
  let '(radix, s3) :=
    match s2 with
    | 48%N :: 120%N :: r => (16, r)
    | 48%N :: 88%N :: r => (16, r)
    | _ => (10, s2)
    end in
  match parse_digits radix s3 None with
  | Some z => Int (sign * z)
  | None => NaN
  end.

Fixpoint decimal_digits (fuel : nat) (z : Z) (acc : JsString.t)
  : JsString.t :=
  match fuel with
  | O => acc
  | S fuel' =>
      let acc' := Z.to_N (48 + z mod 10) :: acc in
      if z <? 10 then acc' else decimal_digits fuel' (z / 10) acc'
  end.

(** [String(n)] as used by ["..." + n]; integers are written in decimal
    (a double switches to exponent notation from 10^21 on). *)
Definition to_string (n : t) : JsString.t :=
  match n with
  | NaN => lit "NaN"
  | Int z =>
      let digits := decimal_digits (S (Z.to_nat (Z.log2 (Z.abs z)))) (Z.abs z) [] in
      if z <? 0 then 45%N :: digits else digits
  end.

End Number.

(** ** The page *)

Module Dom.

(** An element of the document, with the parts the script reads or
    writes: the [value] of a text input, the [checked] state of a
    checkbox, the attributes, the class list and the properties assigned
    on [style]. *)
Record Element := {
  value : JsString.t;
  checked : bool;
  attributes : gmap string JsString.t;
  classList : gset string;
  style : gmap string JsString.t;
}.

Definition with_attributes (f : gmap string JsString.t → gmap string JsString.t)
  (e : Element) : Element :=
  {| value := value e; checked := checked e;
     attributes := f (attributes e);
     classList := classList e; style := style e |}.

Definition with_classList (f : gset string → gset string) (e : Element) : Element :=
  {| value := value e; checked := checked e; attributes := attributes e;
     classList := f (classList e); style := style e |}.

Definition with_style (f : gmap string JsString.t → gmap string JsString.t)
  (e : Element) : Element :=
  {| value := value e; checked := checked e; attributes := attributes e;
     classList := classList e; style := f (style e) |}.

(** The elements attached to the document, by id. *)
Abbreviation Document := (gmap string Element).

End Dom.

(** ** Effects *)

(** What [run()] throws: an Error object.  The script reads its
    [message], a string, and nothing else of it. *)
Record Error := { message : JsString.t }.

(** An argument passed to an export of the wasm module. *)
Inductive Value :=
| VNumber (n : Number.t)
| VString (s : JsString.t).

(** What the script does to the outside of the document, in order. *)
Inductive Event :=
| Alert (msg : JsString.t)
| ConsoleLog (line : JsString.t)
| ConsoleError (e : Error)
| RequestFullscreen (method : string)
| Focus (id : string)
| Call (export : string) (args : list Value).

(** The browser the page runs in: [isTouchDevice] is the script's
    constant of that name, [fullscreenEnabled] is
    [document.fullscreenEnabled], the next three tell which fullscreen
    methods [document.documentElement] has.  [layout] stands for
    [updateCanvasContainerSize]: it sizes the canvas container and the
    on-screen controls from the browser's layout measurements, by
    floating-point ratios of [offsetWidth] and [offsetHeight], and only
    assigns style properties; it is kept abstract. *)
Record Env := {
  isTouchDevice : bool;
  fullscreenEnabled : bool;
  requestFullscreen : bool;
  webkitRequestFullscreen : bool;
  msRequestFullscreen : bool;
  layout : Dom.Document → Dom.Document;
}.

(** The mutable state: the document and the script's [wasm_loaded]. *)
Record World := {
  document : Dom.Document;
  wasm_loaded : bool;
}.

(** How a block of statements ends: it falls through with a value, it
    executes [return], or a member access on [null] throws a TypeError. *)
Inductive Completion (A : Type) :=
| Normal (a : A)
| Returned
| TypeError.
Arguments Normal {A} a.
Arguments Returned {A}.
Arguments TypeError {A}.

(** A statement block: from a world to its completion, the world it
    leaves and the events it emits. *)
Definition M (A : Type) : Type := World → Completion A * World * list Event.

#[export] Instance M_ret : MRet M := λ A a w, (Normal a, w, []).

#[export] Instance M_bind : MBind M := λ A B k m w,
  match m w with
  | (Normal a, w1, t1) =>
      match k a w1 with
      | (c, w2, t2) => (c, w2, t1 ++ t2)
      end
  | (Returned, w1, t1) => (Returned, w1, t1)
  | (TypeError, w1, t1) => (TypeError, w1, t1)
  end.

(** [return;] *)
Definition return_ {A} : M A := λ w, (Returned, w, []).

(** A function body run as a call: [return] ends the call normally. *)
Definition call (body : M unit) : M unit := λ w,
  match body w with
  | (Returned, w1, t1) => (Normal tt, w1, t1)
  | r => r
  end.

Definition emit (e : Event) : M unit := λ w, (Normal tt, w, [e]).

Definition alert (msg : JsString.t) : M unit := emit (Alert msg).
Definition console_log (line : JsString.t) : M unit := emit (ConsoleLog line).
Definition console_error (e : Error) : M unit := emit (ConsoleError e).

(** [document.getElementById(id)]: the element, or [null]. *)
Definition getElementById (id : string) : M (option Dom.Element) := λ w,
  (Normal (document w !! id), w, []).

(** A member access on what [getElementById] returned. *)
Definition member {A} (o : option A) : M A := λ w,
  match o with
  | Some a => (Normal a, w, [])
  | None => (TypeError, w, [])
  end.

Definition set_document (d : Dom.Document) : M unit := λ w,
  (Normal tt, {| document := d; wasm_loaded := wasm_loaded w |}, []).

Definition get_document : M Dom.Document := λ w, (Normal (document w), w, []).

(** A method of the element with the given id that updates it in place. *)
Definition update (id : string) (f : Dom.Element → Dom.Element) : M unit :=
  e ← getElementById id ≫= member;
  d ← get_document;
  set_document (<[id := f e]> d).

(** [document.getElementById(id).remove()]: the element leaves the
    document.  Its descendants leave with it; which elements those are is
    fixed by the page's markup, and the script looks none of them up
    afterwards. *)
Definition remove (id : string) : M unit :=
  _ ← getElementById id ≫= member;
  d ← get_document;
  set_document (delete id d).

Definition removeAttribute (id name : string) : M unit :=
  update id (Dom.with_attributes (delete name)).

Definition setAttribute (id name : string) (v : JsString.t) : M unit :=
  update id (Dom.with_attributes (<[name := v]>)).

Definition classList_add (id cls : string) : M unit :=
  update id (Dom.with_classList (λ c, {[cls]} ∪ c)).

Definition style_set (id prop : string) (v : JsString.t) : M unit :=
  update id (Dom.with_style (<[prop := v]>)).

(** [e.focus()] on an element the script holds in a variable. *)
Definition focus (id : string) : M unit := emit (Focus id).

Definition skip : M unit := mret tt.

(** ** The script *)

Import JsString.

(** The elements the script keeps in variables when it loads.  [canvas]
    is not [null]: the script hands it to a [ResizeObserver] while it
    loads, before it defines [startGame]. *)
Definition canvas : string := "bevy-canvas".
Definition canvasContainer : string := "canvas-container".

(** [updateCanvasContainerSize()] *)
Definition updateCanvasContainerSize (env : Env) : M unit :=
  d ← get_document;
  set_document (layout env d).

(** The wasm module's export [start_game], called with the arguments
    in the order given. *)
Definition start_game (args : list Value) : M unit :=
  emit (Call "start_game" args).

(** [startGame()], the handler of the lobby's start button. *)
Definition startGame (env : Env) : M unit := call (
  numberInput ← getElementById "numberInput" ≫= member;
  let number_of_players := Number.parseInt (Dom.value numberInput) in
  roomID ← getElementById "roomID" ≫= member;
  let room_id := Dom.value roomID in
  customMatchboxServerCheckbox ←
    getElementById "customMatchboxServerCheckbox" ≫= member;
  let use_custom_matchbox_server_settings :=
    Dom.checked customMatchboxServerCheckbox in
  let matchbox_server_url := lit "" in
  customICEServerCheckbox ←
    getElementById "customICEServerCheckbox" ≫= member;
  let use_custom_ice_server_settings :=
    Dom.checked customICEServerCheckbox in
  let ice_server_url := lit "" in
  let turn_server_username := lit "" in
  let turn_server_credential := lit "" in

  (* Validate player count input *)
  (if Number.lt number_of_players (Number.Int 2)
      || Number.gt number_of_players (Number.Int 8)
   then
     alert (lit "Please enter a player count between 2 and 8.");;
     return_
   else skip);;

  room_id ←
    (if negb (strict_eq (trim room_id) (lit "")) then
       (if negb (RoomIdPattern.test room_id) then
          alert (lit "Invalid room ID.");;
          return_
        else skip);;
       mret room_id
     else
       mret (lit "quick_join"));

  (* Validate custom Matchbox server settings *)
  matchbox_server_url ←
    (if use_custom_matchbox_server_settings then
       matchboxServerURL ← getElementById "matchboxServerURL" ≫= member;
       let matchbox_server_url := Dom.value matchboxServerURL in
       (if strict_eq (trim matchbox_server_url) (lit "") then
          alert (lit "Please enter a Matchbox server URL.");;
          return_
        else skip);;
       mret matchbox_server_url
     else
       mret matchbox_server_url);

  (* Validate custom ICE server settings *)
  '(ice_server_url, turn_server_username, turn_server_credential) ←
    (if use_custom_ice_server_settings then
       iceServerURL ← getElementById "iceServerURL" ≫= member;
       let ice_server_url := Dom.value iceServerURL in
       iceServerUsername ← getElementById "iceServerUsername" ≫= member;
       let turn_server_username := Dom.value iceServerUsername in
       iceServerCredential ← getElementById "iceServerCredential" ≫= member;
       let turn_server_credential := Dom.value iceServerCredential in
       (if strict_eq (trim ice_server_url) (lit "") then
          alert (lit "Please enter a STUN/TURN server URL.");;
          return_
        else skip);;
       mret (ice_server_url, turn_server_username, turn_server_credential)
     else
       mret (ice_server_url, turn_server_username, turn_server_credential));

  console_log (lit "Number of players: " ++ Number.to_string number_of_players);;
  console_log (lit "Room ID: " ++ room_id);;
  (if use_custom_matchbox_server_settings then
     console_log (lit "Matchbox server URL: " ++ matchbox_server_url)
   else skip);;
  (if use_custom_ice_server_settings then
     console_log (lit "STUN/TURN server URL: " ++ ice_server_url);;
     console_log (lit "TURN server username: " ++ turn_server_username);;
     console_log (lit "TURN server credential: " ++ turn_server_credential)
   else skip);;

  remove "button-box";;
  removeAttribute "game-container" "hidden";;

  (if isTouchDevice env then
     if fullscreenEnabled env then
       (* go fullscreen *)
       if requestFullscreen env then
         emit (RequestFullscreen "requestFullscreen")
       else if webkitRequestFullscreen env then
         emit (RequestFullscreen "webkitRequestFullscreen")
       else if msRequestFullscreen env then
         emit (RequestFullscreen "msRequestFullscreen")
       else skip
     else
       (* disable the fullscreen button *)
       classList_add "button-fullscreen" "grey";;
       removeAttribute "button-fullscreen" "onpointerclick"
   else
     (* remove on-screen controls *)
     remove "controls";;
     setAttribute canvasContainer "style" (lit "height:100%");;
     style_set canvasContainer "heigth" (lit "100%"));;

  updateCanvasContainerSize env;;

  focus canvas;;
  start_game [VNumber number_of_players; VString room_id;
              VString matchbox_server_url; VString ice_server_url;
              VString turn_server_username; VString turn_server_credential]).

(** What the call [run()] into the wasm module does: it returns, or it
    throws an exception object. *)
Inductive RunOutcome :=
| RunReturns
| RunThrows (e : Error).

Definition set_wasm_loaded (b : bool) : M unit := λ w,
  (Normal tt, {| document := document w; wasm_loaded := b |}, []).

(** [start_wasm()] from the point where [await init()] has resolved. *)
Definition start_wasm (run : RunOutcome) : M unit := call (
  set_wasm_loaded true;;
  emit (Call "run" []);;
  match run with
  | RunReturns => skip
  | RunThrows e =>
      (* the winit crate throws an exception for control flow, which
         should be ignored *)
      if negb (includes (message e) (lit "This isn't actually an error!")) then
        console_error e;;
        remove "button-box";;
        remove "game-container";;
        removeAttribute "error-screen" "hidden"
      else skip
  end).

(** ** The declarations of the generated bindings *)

Module Bindings.

Inductive TsType := TsNumber | TsString.

#[export] Instance TsType_eq_dec : EqDecision TsType.
Proof. solve_decision. Defined.

(** [export function start_game(signal_server_address: string,
    number_of_players: number): void;] *)
Definition start_game : list (string * TsType) :=
  [("signal_server_address", TsString); ("number_of_players", TsNumber)].

Definition type_of (v : Value) : TsType :=
  match v with
  | VNumber _ => TsNumber
  | VString _ => TsString
  end.

(** A call agrees with a declaration when it passes one argument per
    declared parameter, each of the declared type. *)
Definition agrees (decl : list (string * TsType)) (args : list Value) : bool :=
  bool_decide (List.map snd decl = List.map type_of args).

End Bindings.

(** ** The lobby page *)

(** The ids the script looks up; the page's markup declares them all. *)
Definition lobby_ids : list string :=
  ["numberInput"; "roomID"; "customMatchboxServerCheckbox";
   "customICEServerCheckbox"; "matchboxServerURL"; "iceServerURL";
   "iceServerUsername"; "iceServerCredential"; "button-box";
   "game-container"; "button-fullscreen"; "controls"; "canvas-container";
   "bevy-canvas"; "error-screen"].

Definition lobby_page (d : Dom.Document) : Prop :=
  Forall (λ id, is_Some (d !! id)) lobby_ids.

(** The content of a text field and the state of a checkbox. *)
Definition field (d : Dom.Document) (id : string) : JsString.t :=
  from_option Dom.value [] (d !! id).

Definition toggle (d : Dom.Document) (id : string) : bool :=
  from_option Dom.checked false (d !! id).

(** The messages shown and the arguments passed to [start_game]. *)
Definition alerts (t : list Event) : list JsString.t :=
  omap (λ e, match e with Alert m => Some m | _ => None end) t.

Definition start_game_calls (t : list Event) : list (list Value) :=
  omap (λ e, match e with
             | Call f args => if bool_decide (f = "start_game") then Some args else None
             | _ => None
             end) t.


(** The six positional values of a call of [start_game], by role. *)
Record MatchConfig := {
  playerCount : Number.t;
  roomId : JsString.t;
  signalingServerUrl : JsString.t;
  relayServerUrl : JsString.t;
  relayUsername : JsString.t;
  relayCredential : JsString.t;
}.

Definition config_args (c : MatchConfig) : list Value :=
  [VNumber (playerCount c); VString (roomId c);
   VString (signalingServerUrl c); VString (relayServerUrl c);
   VString (relayUsername c); VString (relayCredential c)].

(** A run of [startGame] that rejects the form with message [msg]: the
    message is shown and that is all that happens. *)
Definition rejects (env : Env) (w : World) (msg : JsString.t) : Prop :=
  startGame env w = (Normal tt, w, [Alert msg]).

(** A run of [startGame] that accepts the form: no message is shown and
    [start_game] is called once, with the values of [c]. *)
Definition accepts (env : Env) (w : World) (c : MatchConfig) : Prop :=
  ∃ w' t, startGame env w = (Normal tt, w', t)
          ∧ alerts t = [] ∧ start_game_calls t = [config_args c].

(** The conditions of the four checks of [startGame], on the form's
    fields. *)
Definition player_count_out_of_range (d : Dom.Document) : bool :=
  let number_of_players := Number.parseInt (field d "numberInput") in
  Number.lt number_of_players (Number.Int 2)
  || Number.gt number_of_players (Number.Int 8).

Definition room_id_invalid (d : Dom.Document) : bool :=
  let room_id := field d "roomID" in
  negb (strict_eq (trim room_id) (lit "")) && negb (RoomIdPattern.test room_id).

Definition matchbox_url_missing (d : Dom.Document) : bool :=
  toggle d "customMatchboxServerCheckbox"
  && strict_eq (trim (field d "matchboxServerURL")) (lit "").

Definition ice_url_missing (d : Dom.Document) : bool :=
  toggle d "customICEServerCheckbox"
  && strict_eq (trim (field d "iceServerURL")) (lit "").

(** The values [startGame] has in its six variables once the checks are
    passed. *)
Definition config_of (d : Dom.Document) : MatchConfig := {|
  playerCount := Number.parseInt (field d "numberInput");
  roomId :=
    if strict_eq (trim (field d "roomID")) (lit "") then lit "quick_join"
    else field d "roomID";
  signalingServerUrl :=
    if toggle d "customMatchboxServerCheckbox" then field d "matchboxServerURL"
    else lit "";
  relayServerUrl :=
    if toggle d "customICEServerCheckbox" then field d "iceServerURL" else lit "";
  relayUsername :=
    if toggle d "customICEServerCheckbox" then field d "iceServerUsername"
    else lit "";
  relayCredential :=
    if toggle d "customICEServerCheckbox" then field d "iceServerCredential"
    else lit "";
|}.

(** A string is blank when trimming leaves nothing, and a room number
    when it is four decimal digits. *)
Definition blank (s : JsString.t) : Prop := trim s = [].

Definition four_digits (s : JsString.t) : Prop :=
  length s = 4%nat ∧ Forall (λ c, (48 ≤ c ≤ 57)%N) s.

(** [pat] occurs in [s]. *)
Definition contains (s pat : JsString.t) : Prop :=
  ∃ pre post, s = pre ++ pat ++ post.

(** The four checks in the words of the specification: what makes a
    field invalid. *)
Definition player_count_fails (d : Dom.Document) : Prop :=
  ∃ p, Number.parseInt (field d "numberInput") = Number.Int p ∧ (p < 2 ∨ p > 8).

Definition room_id_fails (d : Dom.Document) : Prop :=
  ¬ blank (field d "roomID") ∧ ¬ four_digits (field d "roomID").

Definition signaling_fails (d : Dom.Document) : Prop :=
  toggle d "customMatchboxServerCheckbox" = true
  ∧ blank (field d "matchboxServerURL").

Definition relay_fails (d : Dom.Document) : Prop :=
  toggle d "customICEServerCheckbox" = true ∧ blank (field d "iceServerURL").

(** The events, the final world and the completion of a run of
    [startGame]. *)
Definition trace_of (env : Env) (w : World) : list Event := (startGame env w).2.
Definition world_after (env : Env) (w : World) : World := (startGame env w).1.2.
Definition completion_of (env : Env) (w : World) : Completion unit :=
  (startGame env w).1.1.

(** A lobby page with the given form contents, for examples. *)
Definition element (v : JsString.t) (c hidden : bool) : Dom.Element :=
  {| Dom.value := v; Dom.checked := c;
     Dom.attributes := if hidden then {["hidden" := lit ""]} else ∅;
     Dom.classList := ∅; Dom.style := ∅ |}.

Definition lobby (players room : string) (matchbox : bool) (matchbox_url : string)
  (ice : bool) (ice_url username credential : string) : World :=
  {| document := list_to_map [
       ("numberInput", element (lit players) false false);
       ("roomID", element (lit room) false false);
       ("customMatchboxServerCheckbox", element [] matchbox false);
       ("matchboxServerURL", element (lit matchbox_url) false false);
       ("customICEServerCheckbox", element [] ice false);
       ("iceServerURL", element (lit ice_url) false false);
       ("iceServerUsername", element (lit username) false false);
       ("iceServerCredential", element (lit credential) false false);
       ("button-box", element [] false false);
       ("game-container", element [] false true);
       ("error-screen", element [] false true);
       ("controls", element [] false false);
       ("button-fullscreen", element [] false false);
       ("canvas-container", element [] false false);
       ("bevy-canvas", element [] false false)];
     wasm_loaded := true |}.

Definition desktop : Env :=
  {| isTouchDevice := false; fullscreenEnabled := true;
     requestFullscreen := true; webkitRequestFullscreen := false;
     msRequestFullscreen := false; layout := id |}.

(** ** The settings panels *)

(** [toggleCustomMatchboxServerSettings()] *)
Definition toggleCustomMatchboxServerSettings : M unit := call (
  checkbox ← getElementById "customMatchboxServerCheckbox";
  settings ← getElementById "matchboxServerSettings";
  checkbox ← member checkbox;
  if Dom.checked checkbox then
    _ ← member settings;
    style_set "matchboxServerSettings" "display" (lit "block")
  else
    _ ← member settings;
    style_set "matchboxServerSettings" "display" (lit "none")).

(** [toggleCustomICEServerSettings()] *)
Definition toggleCustomICEServerSettings : M unit := call (
  checkbox ← getElementById "customICEServerCheckbox";
  settings ← getElementById "ICEServerSettings";
  checkbox ← member checkbox;
  if Dom.checked checkbox then
    _ ← member settings;
    style_set "ICEServerSettings" "display" (lit "block")
  else
    _ ← member settings;
    style_set "ICEServerSettings" "display" (lit "none")).

(** Two documents whose forms read the same: the player-count fields
    parse to the same number, and every other field and checkbox holds
    the same. *)
Definition same_form (d1 d2 : Dom.Document) : Prop :=
  Number.parseInt (field d1 "numberInput") = Number.parseInt (field d2 "numberInput")
  ∧ ∀ id, id ≠ "numberInput" →
          field d1 id = field d2 id ∧ toggle d1 id = toggle d2 id.

(** The lines written with [console.log] and the fullscreen methods
    called, in order. *)
Definition console_logs (t : list Event) : list JsString.t :=
  omap (λ e, match e with ConsoleLog s => Some s | _ => None end) t.


(** What an accepted run of [startGame] emits, from the form and the
    browser. *)
Definition accepted_trace (env : Env) (d : Dom.Document) : list Event :=
  let c := config_of d in
  [ConsoleLog (lit "Number of players: " ++ Number.to_string (playerCount c));
   ConsoleLog (lit "Room ID: " ++ roomId c)]
  ++ (if toggle d "customMatchboxServerCheckbox" then
        [ConsoleLog (lit "Matchbox server URL: " ++ signalingServerUrl c)]
      else [])
  ++ (if toggle d "customICEServerCheckbox" then
        [ConsoleLog (lit "STUN/TURN server URL: " ++ relayServerUrl c);
         ConsoleLog (lit "TURN server username: " ++ relayUsername c);
         ConsoleLog (lit "TURN server credential: " ++ relayCredential c)]
      else [])
  ++ (if isTouchDevice env && fullscreenEnabled env then
        if requestFullscreen env then [RequestFullscreen "requestFullscreen"]
        else if webkitRequestFullscreen env then
          [RequestFullscreen "webkitRequestFullscreen"]
        else if msRequestFullscreen env then
          [RequestFullscreen "msRequestFullscreen"]
        else []
      else [])
  ++ [Focus canvas; Call "start_game" (config_args c)].

(** Two documents with the same elements, each with the same value and
    checked state. *)
Definition same_fields (d d' : Dom.Document) : Prop :=
  ∀ id,
    match d !! id, d' !! id with
    | None, None => True
    | Some e, Some e' =>
        Dom.value e' = Dom.value e ∧ Dom.checked e' = Dom.checked e
    | _, _ => False
    end.

(** The lobby page with the two settings panels, for examples. *)
Definition lobby_with_panels (players room : string) (matchbox : bool)
  (matchbox_url : string) (ice : bool) (ice_url username credential : string)
  : World :=
  let w := lobby players room matchbox matchbox_url ice ice_url username credential in
  {| document :=
       <["matchboxServerSettings" := element [] false false]>
         (<["ICEServerSettings" := element [] false false]> (document w));
     wasm_loaded := wasm_loaded w |}.

(** The elements [updateCanvasContainerSize] and [updateCanvasSize]
    assign styles to. *)
Definition restyled_ids : list string :=
  ["controls"; "canvas-container"; "canvas-inner-container"; "bevy-canvas"].

(** [d'] is [d] with some elements restyled: the same ids are present;
    an element outside [restyled_ids] is the same; one inside keeps its
    value, its checked state, its class list and every attribute but
    [style]. *)
Definition restyled (d d' : Dom.Document) : Prop :=
  ∀ id,
    match d !! id, d' !! id with
    | None, None => True
    | Some e, Some e' =>
        (id ∉ restyled_ids → e' = e)
        ∧ Dom.value e' = Dom.value e
        ∧ Dom.checked e' = Dom.checked e
        ∧ Dom.classList e' = Dom.classList e
        ∧ ∀ a, a ≠ "style" → Dom.attributes e' !! a = Dom.attributes e !! a
    | _, _ => False
    end.

(** ** Arithmetic on numbers *)

Module Arith.

(** [a * b], [a - b], [Math.abs(a)] and [a <= b] on the values of
    [Number.t]; integers are kept exact, as a double keeps them below
    2^53. *)
Definition mul (a b : Number.t) : Number.t :=
  match a, b with
  | Number.Int x, Number.Int y => Number.Int (x * y)
  | _, _ => Number.NaN
  end.

Definition sub (a b : Number.t) : Number.t :=
  match a, b with
  | Number.Int x, Number.Int y => Number.Int (x - y)
  | _, _ => Number.NaN
  end.

Definition abs (a : Number.t) : Number.t :=
  match a with
  | Number.Int x => Number.Int (Z.abs x)
  | Number.NaN => Number.NaN
  end.

Definition le (a b : Number.t) : bool :=
  match a, b with
  | Number.Int x, Number.Int y => x <=? y
  | _, _ => false
  end.

(** An integer below 2^63 in absolute value as a double. *)
Definition to_float (z : Z) : PrimFloat.float :=
  if z <? 0 then PrimFloat.opp (PrimFloat.of_uint63 (Uint63.of_Z (- z)))
  else PrimFloat.of_uint63 (Uint63.of_Z z).

(** [a / b > c / d] in double arithmetic. *)
Definition ratio_gt (a b c d : Z) : bool :=
  PrimFloat.ltb (PrimFloat.div (to_float c) (to_float d))
                (PrimFloat.div (to_float a) (to_float b)).

End Arith.

(** ** The canvas layout *)

Module Layout.

(** What the browser's layout engine answers for a document:
    [getComputedStyle(document.documentElement).fontSize], and the
    [offsetWidth] and [offsetHeight] of the element with a given id. *)
Record Metrics := {
  fontSize : Dom.Document → JsString.t;
  offsetWidth : Dom.Document → string → Z;
  offsetHeight : Dom.Document → string → Z;
}.

(** The script's variables: the remembered size of the canvas container
    ([None] is [undefined]), [isPortrait], and the four elements looked up
    once when the script loads ([None] is [null], [Some id] the element
    of that id, which stays valid when it leaves the document). *)
Record Vars := {
  canvasContainerWidth : option Z;
  canvasContainerHeight : option Z;
  canvas : option string;
  isPortrait : option bool;
  gameContainer : option string;
  canvasContainer : option string;
  canvasInnerContainer : option string;
}.

(** The variables when the script has loaded. *)
Definition load (d : Dom.Document) : Vars :=
  let held id := match d !! id with Some _ => Some id | None => None end in
  {| canvasContainerWidth := None;
     canvasContainerHeight := None;
     canvas := held "bevy-canvas";
     isPortrait := None;
     gameContainer := held "game-container";
     canvasContainer := held "canvas-container";
     canvasInnerContainer := held "canvas-inner-container" |}.

Record Page := { world : World; vars : Vars }.

(** Statement blocks that also read and assign the variables. *)
Definition L (A : Type) : Type := Page → Completion A * Page * list Event.

#[export] Instance L_ret : MRet L := λ A a p, (Normal a, p, []).

#[export] Instance L_bind : MBind L := λ A B k m p,
  match m p with
  | (Normal a, p1, t1) =>
      match k a p1 with
      | (c, p2, t2) => (c, p2, t1 ++ t2)
      end
  | (Returned, p1, t1) => (Returned, p1, t1)
  | (TypeError, p1, t1) => (TypeError, p1, t1)
  end.

Definition lift {A} (m : M A) : L A := λ p,
  match m (world p) with
  | (c, w, t) => (c, {| world := w; vars := vars p |}, t)
  end.

Definition get_vars : L Vars := λ p, (Normal (vars p), p, []).

Definition set_vars (f : Vars → Vars) : L unit := λ p,
  (Normal tt, {| world := world p; vars := f (vars p) |}, []).

Definition set_isPortrait (b : bool) : L unit :=
  set_vars (λ v,
    {| canvasContainerWidth := canvasContainerWidth v;
       canvasContainerHeight := canvasContainerHeight v;
       canvas := canvas v; isPortrait := Some b;
       gameContainer := gameContainer v;
       canvasContainer := canvasContainer v;
       canvasInnerContainer := canvasInnerContainer v |}).

Definition set_canvasContainerHeight (h : Z) : L unit :=
  set_vars (λ v,
    {| canvasContainerWidth := canvasContainerWidth v;
       canvasContainerHeight := Some h;
       canvas := canvas v; isPortrait := isPortrait v;
       gameContainer := gameContainer v;
       canvasContainer := canvasContainer v;
       canvasInnerContainer := canvasInnerContainer v |}).

Definition set_canvasContainerWidth (w : Z) : L unit :=
  set_vars (λ v,
    {| canvasContainerWidth := Some w;
       canvasContainerHeight := canvasContainerHeight v;
       canvas := canvas v; isPortrait := isPortrait v;
       gameContainer := gameContainer v;
       canvasContainer := canvasContainer v;
       canvasInnerContainer := canvasInnerContainer v |}).

(** [n + 'px'] *)
Definition px (n : Number.t) : JsString.t := Number.to_string n ++ lit "px".

(** [updateCanvasSize()] *)
Definition updateCanvasSize (m : Metrics) : L unit :=
  v ← get_vars;
  match canvasContainerHeight v, canvasContainerWidth v with
  | Some height, Some width =>
      canvas ← lift (member (canvas v));
      d ← lift get_document;
      if Arith.ratio_gt height width (offsetHeight m d canvas) (offsetWidth m d canvas)
      then
        lift (setAttribute canvas "style"
                (lit "width:" ++ px (Number.Int width)))
      else
        lift (setAttribute canvas "style"
                (lit "height:" ++ px (Number.Int height)))
  | _, _ => mret tt
  end.

(** The test [portraitCanvasContainerIsMoreSquare] of
    [updateCanvasContainerSize], from [rem] and the size of the game
    container. *)
Definition portraitCanvasContainerIsMoreSquare
  (rem : Number.t) (gameContainerWidth gameContainerHeight : Z) : bool :=
  let canvasContainerLandscapeWidth :=
    Arith.sub (Number.Int gameContainerWidth) (Arith.mul (Number.Int 37) rem) in
  let canvasContainerPortraitHeight :=
    Arith.sub (Number.Int gameContainerHeight) (Arith.mul (Number.Int 37) rem) in
  Arith.le
    (Arith.abs (Arith.sub canvasContainerPortraitHeight (Number.Int gameContainerWidth)))
    (Arith.abs (Arith.sub (Number.Int gameContainerHeight) canvasContainerLandscapeWidth)).

(** [x] and [x == undefined] as conditions. *)
Definition truthy (x : option bool) : bool :=
  match x with Some true => true | _ => false end.

Definition undefined (x : option bool) : bool :=
  match x with None => true | Some _ => false end.

(** [updateCanvasContainerSize()], the handler of [window.onresize]. *)
Definition updateCanvasContainerSize (m : Metrics) : L unit :=
  controls ← lift (getElementById "controls");
  (if bool_decide (is_Some controls) then
     d ← lift get_document;
     let rem := Number.parseInt (fontSize m d) in

     v ← get_vars;
     gameContainer ← lift (member (gameContainer v));
     let gameContainerWidth := offsetWidth m d gameContainer in
     let gameContainerHeight := offsetHeight m d gameContainer in

     let controlsPortraitHeightLandscapeWidth := Arith.mul (Number.Int 35) rem in

     let canvasContainerLandscapeWidth :=
       Arith.sub (Number.Int (offsetWidth m d gameContainer))
                 (Arith.mul (Number.Int 37) rem) in
     let canvasContainerPortraitHeight :=
       Arith.sub (Number.Int (offsetHeight m d gameContainer))
                 (Arith.mul (Number.Int 37) rem) in

     let more_square :=
       portraitCanvasContainerIsMoreSquare rem gameContainerWidth gameContainerHeight in

     (* should the orientation change? *)
     (if (truthy (isPortrait v) || undefined (isPortrait v)) && negb more_square then
        set_isPortrait false;;

        canvasInnerContainer ← lift (member (canvasInnerContainer v));
        lift (style_set canvasInnerContainer "display" (lit "flex"));;
        lift (style_set canvasInnerContainer "justifyContent" (lit "left"));;

        lift (style_set "controls" "float" (lit "right"));;
        lift (style_set "controls" "padding" (lit "0 1rem"))
      else if (negb (truthy (isPortrait v)) || undefined (isPortrait v)) && more_square then
        set_isPortrait true;;

        canvasInnerContainer ← lift (member (canvasInnerContainer v));
        lift (style_set canvasInnerContainer "display" (lit "block"));;
        lift (style_set canvasInnerContainer "justifyContent" (lit "center"));;

        lift (style_set "controls" "float" (lit "none"));;
        lift (style_set "controls" "padding" (lit "1rem 0"))
      else mret tt);;

     v ← get_vars;
     if truthy (isPortrait v) then
       canvasContainer ← lift (member (canvasContainer v));
       lift (style_set canvasContainer "width" (px (Number.Int gameContainerWidth)));;
       lift (style_set canvasContainer "height" (px canvasContainerPortraitHeight));;

       lift (style_set "controls" "width" (px (Number.Int gameContainerWidth)));;
       lift (style_set "controls" "height" (px controlsPortraitHeightLandscapeWidth))
     else
       canvasContainer ← lift (member (canvasContainer v));
       lift (style_set canvasContainer "width" (px canvasContainerLandscapeWidth));;
       lift (style_set canvasContainer "height" (px (Number.Int gameContainerHeight)));;

       lift (style_set "controls" "width" (px controlsPortraitHeightLandscapeWidth));;
       lift (style_set "controls" "height" (px (Number.Int gameContainerHeight)))
   else mret tt);;

  v ← get_vars;
  canvasContainer ← lift (member (canvasContainer v));
  d ← lift get_document;
  set_canvasContainerHeight (offsetHeight m d canvasContainer);;
  set_canvasContainerWidth (offsetWidth m d canvasContainer);;

  updateCanvasSize m.

(** The four variables hold the elements that are in the document, as
    they do when the script has loaded and as long as none of the four
    is removed or added. *)
Definition elements_of (d : Dom.Document) (v : Vars) : Prop :=
  canvas v = canvas (load d)
  ∧ gameContainer v = gameContainer (load d)
  ∧ canvasContainer v = canvasContainer (load d)
  ∧ canvasInnerContainer v = canvasInnerContainer (load d).

(** The elements the layout code works on. *)
Definition game_ids : list string :=
  ["controls"; "game-container"; "canvas-container";
   "canvas-inner-container"; "bevy-canvas"].

Definition game_elements (d : Dom.Document) : Prop :=
  Forall (λ id, is_Some (d !! id)) game_ids.

(** The style properties that go with an orientation. *)
Definition styled_for (portrait : bool) (d : Dom.Document) : Prop :=
  ∃ inner controls,
    d !! "canvas-inner-container" = Some inner
    ∧ d !! "controls" = Some controls
    ∧ Dom.style inner !! "display"
      = Some (if portrait then lit "block" else lit "flex")
    ∧ Dom.style inner !! "justifyContent"
      = Some (if portrait then lit "center" else lit "left")
    ∧ Dom.style controls !! "float"
      = Some (if portrait then lit "none" else lit "right")
    ∧ Dom.style controls !! "padding"
      = Some (if portrait then lit "1rem 0" else lit "0 1rem").

(** The page after [updateCanvasContainerSize], how the call completed,
    and what it did. *)
Definition resized (m : Metrics) (p : Page) : Page :=
  (updateCanvasContainerSize m p).1.2.

Definition resize_completion (m : Metrics) (p : Page) : Completion unit :=
  (updateCanvasContainerSize m p).1.1.

Definition resize_trace (m : Metrics) (p : Page) : list Event :=
  (updateCanvasContainerSize m p).2.

(** Weakest preconditions of blocks over the page. *)
Definition wpL {A} (m : L A) (p : Page)
  (Q : Completion A → Page → list Event → Prop) : Prop :=
  let '(c, p', t) := m p in Q c p' t.

(** A page with the game's elements and a browser that measures the
    game container as given, for examples. *)
Definition game_page (isPortrait : option bool) : Page :=
  let d : Dom.Document :=
    <["canvas-inner-container" := element [] false false]>
      (document (lobby "" "" false "" false "" "" "")) in
  {| world := {| document := d; wasm_loaded := true |};
     vars :=
       {| canvasContainerWidth := None; canvasContainerHeight := None;
          canvas := Some "bevy-canvas"; isPortrait := isPortrait;
          gameContainer := Some "game-container";
          canvasContainer := Some "canvas-container";
          canvasInnerContainer := Some "canvas-inner-container" |} |}.

Definition browser (font_size : string) (width height : Z) : Metrics :=
  {| fontSize := λ _, lit font_size;
     offsetWidth := λ _ id,
       if bool_decide (id = "game-container") then width else 100;
     offsetHeight := λ _ id,
       if bool_decide (id = "game-container") then height else 100 |}.

End Layout.

(** Weakest preconditions of statement blocks. *)
Definition wp {A} (m : M A) (w : World)
  (Q : Completion A → World → list Event → Prop) : Prop :=
  let '(c, w', t) := m w in Q c w' t.

(** ** Symbolic execution of statement blocks *)

(** The elements of a lobby page, one hypothesis per id. *)
Ltac elements H :=
  unfold lobby_page, lobby_ids in H;
  repeat match type of H with
         | Forall _ (_ :: _) => apply Forall_cons in H as [[? ?] H]
         end;
  clear H.

Section Wp.
Context {A B : Type}.

Lemma wp_bind (m : M A) (k : A → M B) w Q :
  wp m w (λ c w1 t1,
    match c with
    | Normal a => wp (k a) w1 (λ c2 w2 t2, Q c2 w2 (t1 ++ t2))
    | Returned => Q Returned w1 t1
    | TypeError => Q TypeError w1 t1
    end) →
  wp (m ≫= k) w Q.
Proof.
  unfold wp, mbind, M_bind.
  destruct (m w) as [[[a| |] w1] t1]; try done.
  by destruct (k a w1) as [[c2 w2] t2].
Qed.

Lemma wp_value (m : M A) w c w' t (Q : Completion A → World → list Event → Prop) :
  m w = (c, w', t) → Q c w' t → wp m w Q.
Proof. unfold wp. by intros ->. Qed.

Lemma wp_elim (m : M A) w Q :
  wp m w Q → ∃ c w' t, m w = (c, w', t) ∧ Q c w' t.
Proof. unfold wp. destruct (m w) as [[c w'] t]. eauto. Qed.

End Wp.

Lemma wp_call (body : M unit) w Q :
  wp body w (λ c w1 t1,
    match c with
    | Returned => Q (Normal tt) w1 t1
    | _ => Q c w1 t1
    end) →
  wp (call body) w Q.
Proof.
  unfold wp, call. by destruct (body w) as [[[a| |] w1] t1].
Qed.

Lemma wp_member {A} (o : option A) (a : A) w Q :
  o = Some a → Q (Normal a) w [] → wp (member o) w Q.
Proof. intros -> ?. done. Qed.

(** A check of the form: it either shows [msg] and returns, or goes on
    with the value [v], and leaves the world alone. *)
Lemma wp_block {A} (m : M A) w (bad : bool) msg v Q :
  m w = (if bad then (Returned, w, [Alert msg]) else (Normal v, w, [])) →
  (bad = true → Q Returned w [Alert msg]) →
  (bad = false → Q (Normal v) w []) →
  wp m w Q.
Proof. unfold wp. intros ->. destruct bad; auto. Qed.

(** [if (b) { m }] for a block [m] that only emits events. *)
Lemma wp_when (b : bool) (m : M unit) w t Q :
  m w = (Normal tt, w, t) →
  Q (Normal tt) w (if b then t else []) →
  wp (if b then m else skip) w Q.
Proof. unfold wp. destruct b; [by intros ->|done]. Qed.

Lemma bind_read {B} id e (k : Dom.Element → M B) w :
  document w !! id = Some e →
  ((getElementById id ≫= member) ≫= k) w = k e w.
Proof.
  intros H. unfold mbind, M_bind, getElementById, member. rewrite H.
  by destruct (k e w) as [[c w'] t].
Qed.

(** One step of execution, chosen by the head of the block. *)
Ltac wp_step :=
  lazymatch goal with
  | |- wp (call _) _ _ => apply wp_call
  | |- wp (mbind _ _) _ _ => apply wp_bind
  | |- wp (member _) _ _ =>
      eapply wp_member;
      [cbn [document]; unfold canvasContainer;
       repeat first [ rewrite lookup_insert_eq
                    | rewrite lookup_insert_ne by done
                    | rewrite lookup_delete_ne by done ];
       first [eassumption | reflexivity]|]
  | |- wp (if ?b then _ else skip) _ _ =>
      first [is_var b; destruct b | eapply wp_when; [reflexivity|]]
  | |- wp (if ?b then _ else _) _ _ => is_var b; destruct b
  | |- wp (remove _) _ _ => unfold remove
  | |- wp (removeAttribute _ _) _ _ => unfold removeAttribute
  | |- wp (setAttribute _ _ _) _ _ => unfold setAttribute
  | |- wp (classList_add _ _) _ _ => unfold classList_add
  | |- wp (style_set _ _ _) _ _ => unfold style_set
  | |- wp (update _ _) _ _ => unfold update
  | |- wp (focus _) _ _ => unfold focus
  | |- wp (updateCanvasContainerSize _) _ _ => unfold updateCanvasContainerSize
  | |- wp (start_game _) _ _ => unfold start_game
  | |- wp (alert _) _ _ => unfold alert
  | |- wp (console_log _) _ _ => unfold console_log
  | |- wp (console_error _) _ _ => unfold console_error
  | |- wp skip _ _ => unfold skip
  | |- wp _ _ _ => eapply wp_value; [reflexivity|]
  end;
  cbv beta iota zeta.

Ltac wp_check bad v :=
  eapply (wp_block _ _ bad _ v);
  [ | let H := fresh "Hbad" in intros H; rewrite H; done
    | let H := fresh "Hok" in intros H; rewrite H; cbv beta iota zeta ].

(** The form's fields, in terms of the elements of the page. *)
Ltac read_fields :=
  unfold player_count_out_of_range, room_id_invalid, matchbox_url_missing,
    ice_url_missing, config_of, field, toggle in *;
  repeat match goal with
         | H : document ?w !! _ = Some _ |- _ =>
             rewrite H in *; cbn [from_option] in *
         end.

(** The outcome of [startGame] on the lobby page: the first check that
    fails rejects the form, and the form is accepted when none does. *)
Lemma startGame_outcome env w :
  lobby_page (document w) →
  let d := document w in
  if player_count_out_of_range d then
    rejects env w (lit "Please enter a player count between 2 and 8.")
  else if room_id_invalid d then
    rejects env w (lit "Invalid room ID.")
  else if matchbox_url_missing d then
    rejects env w (lit "Please enter a Matchbox server URL.")
  else if ice_url_missing d then
    rejects env w (lit "Please enter a STUN/TURN server URL.")
  else
    accepts env w (config_of d).
Proof.
  intros Hp d. subst d. elements Hp.
  cut (wp (startGame env) w (λ c w' t, c = Normal tt ∧
    let d := document w in
    if player_count_out_of_range d then
      w' = w ∧ t = [Alert (lit "Please enter a player count between 2 and 8.")]
    else if room_id_invalid d then
      w' = w ∧ t = [Alert (lit "Invalid room ID.")]
    else if matchbox_url_missing d then
      w' = w ∧ t = [Alert (lit "Please enter a Matchbox server URL.")]
    else if ice_url_missing d then
      w' = w ∧ t = [Alert (lit "Please enter a STUN/TURN server URL.")]
    else
      alerts t = [] ∧ start_game_calls t = [config_args (config_of d)])).
  { intros (c & w' & t & Hrun & -> & Hq)%wp_elim. unfold rejects, accepts.
    cbv zeta in Hq.
    repeat case_match; destruct Hq as [Hq1 Hq2]; subst; eauto. }
  read_fields. unfold startGame.
  destruct env as [touch fs rfs wrfs mrfs lay]; cbn [isTouchDevice fullscreenEnabled
    requestFullscreen webkitRequestFullscreen msRequestFullscreen layout].
  repeat wp_step.
  (* player count *)
  match goal with |- wp (if ?C then _ else _) _ _ =>
    wp_check C tt; [by destruct C|]
  end.
  repeat wp_step.
  (* room id *)
  match goal with
  | |- wp (if negb (strict_eq (trim ?r) ?e) then _ else mret ?q) _ _ =>
    wp_check (negb (strict_eq (trim r) e) && negb (RoomIdPattern.test r))
             (if strict_eq (trim r) e then q else r);
      [by destruct (strict_eq (trim r) e), (RoomIdPattern.test r)|]
  end.
  repeat wp_step.
  (* signaling override *)
  match goal with
  | Hx : _ !! "matchboxServerURL" = Some ?x |- wp (if ?b then _ else mret ?q) _ _ =>
    wp_check (b && strict_eq (trim (Dom.value x)) q) (if b then Dom.value x else q);
      [destruct b; [|done]; rewrite (bind_read _ _ _ _ Hx);
       by destruct (strict_eq (trim (Dom.value x)) q)|]
  end.
  repeat wp_step.
  (* relay override *)
  match goal with
  | Hx : _ !! "iceServerURL" = Some ?x, Hy : _ !! "iceServerUsername" = Some ?y,
    Hz : _ !! "iceServerCredential" = Some ?z
    |- wp (if ?b then _ else mret (?q, _, _)) _ _ =>
    wp_check (b && strict_eq (trim (Dom.value x)) q)
             (if b then Dom.value x else q, if b then Dom.value y else q,
              if b then Dom.value z else q);
      [destruct b; [|done];
       rewrite (bind_read _ _ _ _ Hx), (bind_read _ _ _ _ Hy), (bind_read _ _ _ _ Hz);
       by destruct (strict_eq (trim (Dom.value x)) q)|]
  end.
  repeat wp_step.
  all: repeat match goal with |- context [Dom.checked ?x] => destruct (Dom.checked x) end.
  all: repeat split; reflexivity.
Qed.

(** ** Strings and numbers *)

Lemma strict_eq_true a b : strict_eq a b = true ↔ a = b.
Proof. unfold strict_eq. by rewrite bool_decide_eq_true. Qed.

Lemma strict_eq_blank s : strict_eq (trim s) (lit "") = true ↔ blank s.
Proof. by rewrite strict_eq_true. Qed.

Lemma trim_start_nil s :
  trim_start s = [] ↔ Forall (λ c, is_white_space c = true) s.
Proof.
  induction s as [|c s IH]; cbn; [done|].
  destruct (is_white_space c) eqn:E.
  - rewrite IH, Forall_cons. tauto.
  - split; [done|]. intros [? _]%Forall_cons. congruence.
Qed.

Lemma trim_start_all_white_space s :
  Forall (λ c, is_white_space c = true) (trim_start s) → trim_start s = [].
Proof.
  induction s as [|c s IH]; cbn; [done|].
  destruct (is_white_space c) eqn:E; [done|].
  intros [? _]%Forall_cons. congruence.
Qed.

(** A string is blank exactly when it consists of white space only. *)
Lemma blank_all_white_space s :
  blank s ↔ Forall (λ c, is_white_space c = true) s.
Proof.
  unfold blank, trim, trim_end. split.
  - intros H. apply trim_start_nil, trim_start_all_white_space.
    apply (f_equal (@rev N)) in H. rewrite rev_involutive in H. cbn in H.
    apply trim_start_nil in H. rewrite rev_alt in H.
    exact (proj1 (Forall_reverse _ (trim_start s)) H).
  - intros H%trim_start_nil. by rewrite H.
Qed.

Lemma is_digit_bounds c : is_digit c = true ↔ (48 ≤ c ≤ 57)%N.
Proof. unfold is_digit. rewrite andb_true_iff, !N.leb_le. done. Qed.

Lemma test_four_digits r : RoomIdPattern.test r = true ↔ four_digits r.
Proof.
  unfold four_digits, RoomIdPattern.test. split.
  - destruct r as [|a [|b [|c [|d [|e r]]]]]; cbn;
      repeat case_match; try done.
    intros _. split; [done|].
    repeat constructor; by apply is_digit_bounds.
  - intros [Hl Hd].
    destruct r as [|a [|b [|c [|d [|e r]]]]]; try done.
    repeat match goal with
           | H : Forall _ (_ :: _) |- _ => apply Forall_cons in H as [?%is_digit_bounds H]
           end.
    cbn. by repeat match goal with H : is_digit _ = true |- _ => rewrite H; clear H end.
Qed.

Lemma digit_not_white_space c : (48 ≤ c ≤ 57)%N → is_white_space c = false.
Proof.
  intros H. unfold is_white_space.
  repeat match goal with
         | |- context [(?a <=? ?b)%N] =>
             destruct (N.leb_spec a b); try lia
         | |- context [(?a =? ?b)%N] =>
             destruct (N.eqb_spec a b); try lia
         end; done.
Qed.

Lemma four_digits_trim r : four_digits r → trim r = r.
Proof.
  intros [Hl Hd].
  destruct r as [|a [|b [|c [|d [|e r]]]]]; try done.
  repeat match goal with
         | H : Forall _ (_ :: _) |- _ =>
             apply Forall_cons in H as [?%digit_not_white_space H]
         end.
  unfold trim, trim_end. cbn.
  repeat match goal with
         | H : is_white_space ?x = false |- context [is_white_space ?x] => rewrite H
         end.
  cbn.
  by repeat match goal with
            | H : is_white_space ?x = false |- context [is_white_space ?x] => rewrite H
            end.
Qed.

Lemma four_digits_not_blank r : four_digits r → ¬ blank r.
Proof.
  intros H. unfold blank. rewrite (four_digits_trim r H).
  destruct H as [Hl _]. by destruct r.
Qed.

Lemma starts_with_prefix pat s :
  starts_with pat s = true ↔ ∃ post, s = pat ++ post.
Proof.
  revert s. induction pat as [|p pat IH]; intros s; cbn.
  - split; eauto.
  - destruct s as [|c s].
    + split; [done|]. by intros [post ?].
    + rewrite andb_true_iff, N.eqb_eq, IH. split.
      * intros [-> [post ->]]. eauto.
      * intros [post [= -> ->]]. eauto.
Qed.

Lemma includes_contains s pat : includes s pat = true ↔ contains s pat.
Proof.
  unfold contains. induction s as [|c s IH]; cbn.
  - rewrite orb_false_r, starts_with_prefix. split.
    + intros [post ->]. by exists [], post.
    + intros (pre & post & H). symmetry in H.
      apply app_eq_nil in H as [-> H]. exists post. done.
  - rewrite orb_true_iff, starts_with_prefix, IH. split.
    + intros [[post ->] | (pre & post & ->)].
      * by exists [], post.
      * by exists (c :: pre), post.
    + intros (pre & post & H). destruct pre as [|c' pre].
      * left. eauto.
      * injection H as -> ->. right. eauto.
Qed.

Lemma player_count_range d p :
  Number.parseInt (field d "numberInput") = Number.Int p →
  player_count_out_of_range d = true ↔ ¬ (2 ≤ p ≤ 8).
Proof.
  unfold player_count_out_of_range. intros ->. cbn.
  rewrite orb_true_iff, !Z.ltb_lt. lia.
Qed.

Lemma player_count_nan d :
  Number.parseInt (field d "numberInput") = Number.NaN →
  player_count_out_of_range d = false.
Proof. unfold player_count_out_of_range. by intros ->. Qed.

Lemma room_id_valid d :
  room_id_invalid d = false ↔
  blank (field d "roomID") ∨ four_digits (field d "roomID").
Proof.
  unfold room_id_invalid. cbv zeta.
  rewrite andb_false_iff, !negb_false_iff, strict_eq_blank, test_four_digits.
  done.
Qed.

(** ** Runs of [startGame] *)

Lemma rejects_run env w msg :
  rejects env w msg →
  completion_of env w = Normal tt ∧ world_after env w = w
  ∧ trace_of env w = [Alert msg].
Proof.
  unfold rejects, completion_of, world_after, trace_of. by intros ->.
Qed.

Lemma accepts_run env w c :
  accepts env w c →
  completion_of env w = Normal tt ∧ alerts (trace_of env w) = []
  ∧ start_game_calls (trace_of env w) = [config_args c].
Proof.
  unfold accepts, completion_of, trace_of. by intros (w' & t & -> & ? & ?).
Qed.

Lemma accepts_not_rejects env w c msg : accepts env w c → rejects env w msg → False.
Proof.
  intros (_ & Ha & _)%accepts_run (_ & _ & Hr)%rejects_run.
  by rewrite Hr in Ha.
Qed.

Lemma accepts_unique env w c c' : accepts env w c → accepts env w c' → c = c'.
Proof.
  intros (_ & _ & H)%accepts_run (_ & _ & H')%accepts_run.
  rewrite H in H'. destruct c, c'. by injection H' as -> -> -> -> -> ->.
Qed.

Lemma rejects_unique env w m m' : rejects env w m → rejects env w m' → m = m'.
Proof.
  intros (_ & _ & H)%rejects_run (_ & _ & H')%rejects_run.
  rewrite H in H'. by injection H'.
Qed.

(** The five outcomes, each with the conditions under which it occurs. *)
Lemma startGame_cases env w :
  lobby_page (document w) →
  let d := document w in
  (player_count_out_of_range d = true
   ∧ rejects env w (lit "Please enter a player count between 2 and 8."))
  ∨ (player_count_out_of_range d = false ∧ room_id_invalid d = true
     ∧ rejects env w (lit "Invalid room ID."))
  ∨ (player_count_out_of_range d = false ∧ room_id_invalid d = false
     ∧ matchbox_url_missing d = true
     ∧ rejects env w (lit "Please enter a Matchbox server URL."))
  ∨ (player_count_out_of_range d = false ∧ room_id_invalid d = false
     ∧ matchbox_url_missing d = false ∧ ice_url_missing d = true
     ∧ rejects env w (lit "Please enter a STUN/TURN server URL."))
  ∨ (player_count_out_of_range d = false ∧ room_id_invalid d = false
     ∧ matchbox_url_missing d = false ∧ ice_url_missing d = false
     ∧ accepts env w (config_of d)).
Proof.
  intros Hp d. pose proof (startGame_outcome env w Hp) as H. cbv zeta in H.
  fold d in H.
  destruct (player_count_out_of_range d); [by left|].
  destruct (room_id_invalid d); [by right; left|].
  destruct (matchbox_url_missing d); [by right; right; left|].
  destruct (ice_url_missing d); [by right; right; right; left|].
  by right; right; right; right.
Qed.

Lemma startGame_accepts env w :
  lobby_page (document w) →
  player_count_out_of_range (document w) = false →
  room_id_invalid (document w) = false →
  matchbox_url_missing (document w) = false →
  ice_url_missing (document w) = false →
  accepts env w (config_of (document w)).
Proof.
  intros Hp H1 H2 H3 H4. pose proof (startGame_outcome env w Hp) as H.
  cbv zeta in H. by rewrite H1, H2, H3, H4 in H.
Qed.

Lemma accepts_inv env w c :
  lobby_page (document w) → accepts env w c →
  c = config_of (document w)
  ∧ player_count_out_of_range (document w) = false
  ∧ room_id_invalid (document w) = false
  ∧ matchbox_url_missing (document w) = false
  ∧ ice_url_missing (document w) = false.
Proof.
  intros Hp Ha.
  destruct (startGame_cases env w Hp) as
    [[_ H]|[(_ & _ & H)|[(_ & _ & _ & H)|[(_ & _ & _ & _ & H)|(? & ? & ? & ? & H)]]]];
    try (by destruct (accepts_not_rejects _ _ _ _ Ha H)).
  split; [by eapply accepts_unique|done].
Qed.

(** The four messages are different. *)
Lemma messages_distinct :
  NoDup [lit "Please enter a player count between 2 and 8.";
         lit "Invalid room ID.";
         lit "Please enter a Matchbox server URL.";
         lit "Please enter a STUN/TURN server URL."].
Proof. apply (bool_decide_unpack _). by vm_compute. Qed.

Lemma signaling_missing d :
  matchbox_url_missing d = true ↔ signaling_fails d.
Proof.
  unfold matchbox_url_missing, signaling_fails.
  by rewrite andb_true_iff, strict_eq_blank.
Qed.

Lemma relay_missing d : ice_url_missing d = true ↔ relay_fails d.
Proof.
  unfold ice_url_missing, relay_fails.
  by rewrite andb_true_iff, strict_eq_blank.
Qed.

Lemma player_count_fails_iff d :
  player_count_out_of_range d = true ↔ player_count_fails d.
Proof.
  unfold player_count_fails. split.
  - intros H. destruct (Number.parseInt (field d "numberInput")) as [|p] eqn:E.
    + by rewrite (player_count_nan d E) in H.
    + exists p. split; [done|]. apply (player_count_range d p E) in H. lia.
  - intros (p & E & H). apply (player_count_range d p E). lia.
Qed.

Lemma room_id_fails_iff d : room_id_invalid d = true ↔ room_id_fails d.
Proof.
  unfold room_id_fails. rewrite <-not_false_iff_true, room_id_valid. tauto.
Qed.

Lemma lobby_page_lobby p r m mu i iu un cr :
  lobby_page (document (lobby p r m mu i iu un cr)).
Proof.
  unfold lobby_page, lobby_ids.
  repeat (apply Forall_cons; split; [apply (bool_decide_unpack _); by vm_compute|]).
  by apply Forall_nil.
Qed.

Lemma rejects_alerts env w msg :
  rejects env w msg → alerts (trace_of env w) = [msg].
Proof. intros (_ & _ & ->)%rejects_run. done. Qed.

Lemma rejects_no_call env w msg :
  rejects env w msg → start_game_calls (trace_of env w) = [].
Proof. intros (_ & _ & ->)%rejects_run. done. Qed.

Ltac clash :=
  match goal with
  | H : rejects ?env ?w ?m, H' : rejects ?env ?w ?m' |- _ =>
      pose proof (rejects_unique _ _ _ _ H H') as Hclash;
      vm_compute in Hclash; discriminate Hclash
  | H : accepts ?env ?w _, H' : rejects ?env ?w _ |- _ =>
      destruct (accepts_not_rejects _ _ _ _ H H')
  | H : ?b = true, H' : ?b = false |- _ => congruence
  end.

(** Which message a run shows is decided by the first check that fails. *)
Lemma rejects_iff env w :
  lobby_page (document w) →
  let d := document w in
  (rejects env w (lit "Please enter a player count between 2 and 8.")
   ↔ player_count_out_of_range d = true)
  ∧ (rejects env w (lit "Invalid room ID.")
     ↔ player_count_out_of_range d = false ∧ room_id_invalid d = true)
  ∧ (rejects env w (lit "Please enter a Matchbox server URL.")
     ↔ player_count_out_of_range d = false ∧ room_id_invalid d = false
       ∧ matchbox_url_missing d = true)
  ∧ (rejects env w (lit "Please enter a STUN/TURN server URL.")
     ↔ player_count_out_of_range d = false ∧ room_id_invalid d = false
       ∧ matchbox_url_missing d = false ∧ ice_url_missing d = true).
Proof.
  intros Hp d.
  destruct (startGame_cases env w Hp) as
    [[Hc H]|[(Hc & Hr & H)|[(Hc & Hr & Hs & H)
     |[(Hc & Hr & Hs & Hi & H)|(Hc & Hr & Hs & Hi & H)]]]];
    fold d in Hc; try fold d in Hr; try fold d in Hs; try fold d in Hi;
    repeat split; try done; intros; destruct_and?; try done; clash.
Qed.

Lemma shown_iff env w msg :
  lobby_page (document w) →
  msg ∈ alerts (trace_of env w) ↔ rejects env w msg.
Proof.
  intros Hp. split.
  - destruct (startGame_cases env w Hp) as
      [[_ H]|[(_ & _ & H)|[(_ & _ & _ & H)|[(_ & _ & _ & _ & H)|(_ & _ & _ & _ & H)]]]];
      try (rewrite (rejects_alerts _ _ _ H); by intros ->%list_elem_of_singleton).
    apply accepts_run in H as (_ & -> & _). by intros ?%not_elem_of_nil.
  - intros ->%rejects_alerts. by apply list_elem_of_singleton.
Qed.

(** ** The claims *)

(** C2. For every integer [p] read from the player-count field, the
    player-count check passes (its message is not shown) if and only if
    [2 ≤ p ≤ 8]; when it fails the message "Please enter a player count
    between 2 and 8." is shown and the start is blocked: the run ends
    there, the page is unchanged and [start_game] is not called. *)
Theorem player_count_validation env w p :
  lobby_page (document w) →
  Number.parseInt (field (document w) "numberInput") = Number.Int p →
  (lit "Please enter a player count between 2 and 8." ∉ alerts (trace_of env w)
   ↔ 2 ≤ p ≤ 8)
  ∧ (¬ (2 ≤ p ≤ 8) →
     completion_of env w = Normal tt
     ∧ world_after env w = w
     ∧ trace_of env w = [Alert (lit "Please enter a player count between 2 and 8.")]
     ∧ start_game_calls (trace_of env w) = []).
Proof.
  intros Hp Hn. pose proof (player_count_range _ _ Hn) as Hr.
  destruct (rejects_iff env w Hp) as (Hpc & _).
  rewrite (shown_iff _ _ _ Hp), Hpc, Hr. split.
  - destruct (decide (2 ≤ p ≤ 8)); tauto.
  - intros H%Hr%Hpc. pose proof (rejects_no_call _ _ _ H).
    by apply rejects_run in H as (? & ? & ?).
Qed.

Lemma player_count_validation_witness :
  let w := lobby "9" "" false "" false "" "" "" in
  lobby_page (document w)
  ∧ Number.parseInt (field (document w) "numberInput") = Number.Int 9
  ∧ (lit "Please enter a player count between 2 and 8." ∉ alerts (trace_of desktop w)
     ↔ 2 ≤ 9 ≤ 8)
  ∧ (¬ (2 ≤ 9 ≤ 8) →
     completion_of desktop w = Normal tt
     ∧ world_after desktop w = w
     ∧ trace_of desktop w = [Alert (lit "Please enter a player count between 2 and 8.")]
     ∧ start_game_calls (trace_of desktop w) = []).
Proof.
  intros w. split; [apply lobby_page_lobby|]. split; [reflexivity|].
  apply (player_count_validation desktop w 9); [apply lobby_page_lobby | reflexivity].
Defined.

(** C4. Once the player count is passed, the room-id check passes (its
    message is not shown) if and only if the room id is blank after
    trimming or is exactly four decimal digits; any other room id is
    rejected with "Invalid room ID."; a blank room id becomes "quick_join"
    in the configuration and a four-digit one is kept verbatim. *)
Theorem room_id_validation env w :
  lobby_page (document w) →
  player_count_out_of_range (document w) = false →
  let r := field (document w) "roomID" in
  (lit "Invalid room ID." ∉ alerts (trace_of env w) ↔ blank r ∨ four_digits r)
  ∧ (¬ (blank r ∨ four_digits r) → rejects env w (lit "Invalid room ID."))
  ∧ (∀ c, accepts env w c → blank r → roomId c = lit "quick_join")
  ∧ (∀ c, accepts env w c → four_digits r → roomId c = r)
  ∧ (blank r ∨ four_digits r →
     matchbox_url_missing (document w) = false →
     ice_url_missing (document w) = false →
     ∃ c, accepts env w c).
Proof.
  intros Hp Hc r.
  destruct (rejects_iff env w Hp) as (_ & Hroom & _).
  pose proof (room_id_valid (document w)) as Hv. fold r in Hv.
  rewrite (shown_iff _ _ _ Hp), Hroom, <-Hv.
  split; [|split; [|split; [|split]]].
  - destruct (room_id_invalid (document w)); split; try done.
    + intros H. by destruct H.
    + by intros _ [_ ?].
  - intros H. split; [done|]. by destruct (room_id_invalid (document w)).
  - intros c (-> & _)%accepts_inv Hb; [|done].
    unfold config_of; cbn [roomId]. fold r. apply strict_eq_blank in Hb. by rewrite Hb.
  - intros c (-> & _)%accepts_inv Hd; [|done].
    unfold config_of; cbn [roomId]. fold r. destruct (strict_eq (trim r) (lit "")) eqn:E; [|done].
    apply strict_eq_blank in E. by destruct (four_digits_not_blank r).
  - intros Hr Hs Hi. exists (config_of (document w)). by apply startGame_accepts.
Qed.

Lemma room_id_validation_witness :
  let w := lobby "4" "0420" false "" false "" "" "" in
  lobby_page (document w)
  ∧ player_count_out_of_range (document w) = false
  ∧ (let r := field (document w) "roomID" in
     (lit "Invalid room ID." ∉ alerts (trace_of desktop w) ↔ blank r ∨ four_digits r)
     ∧ (¬ (blank r ∨ four_digits r) → rejects desktop w (lit "Invalid room ID."))
     ∧ (∀ c, accepts desktop w c → blank r → roomId c = lit "quick_join")
     ∧ (∀ c, accepts desktop w c → four_digits r → roomId c = r)
     ∧ (blank r ∨ four_digits r →
        matchbox_url_missing (document w) = false →
        ice_url_missing (document w) = false →
        ∃ c, accepts desktop w c)).
Proof.
  intros w. split; [apply lobby_page_lobby|]. split; [reflexivity|].
  apply (room_id_validation desktop w); [apply lobby_page_lobby | reflexivity].
Defined.

(** C6. When any of the four checks fails, the run shows one message
    and does nothing else: the page is left as it was (the lobby box is
    still there and the game container keeps its [hidden] attribute) and
    [start_game] is not called. *)
Theorem failed_validation_has_no_effect env w :
  lobby_page (document w) →
  player_count_fails (document w) ∨ room_id_fails (document w)
  ∨ signaling_fails (document w) ∨ relay_fails (document w) →
  (∃ msg, trace_of env w = [Alert msg])
  ∧ completion_of env w = Normal tt
  ∧ world_after env w = w
  ∧ document (world_after env w) !! "button-box" = document w !! "button-box"
  ∧ document (world_after env w) !! "game-container"
    = document w !! "game-container"
  ∧ start_game_calls (trace_of env w) = [].
Proof.
  intros Hp Hfail.
  assert (∃ msg, rejects env w msg) as [msg H].
  { destruct (startGame_cases env w Hp) as
      [[_ H]|[(_ & _ & H)|[(_ & _ & _ & H)|[(_ & _ & _ & _ & H)|(Hc & Hr & Hs & Hi & _)]]]];
      eauto.
    rewrite <-player_count_fails_iff, <-room_id_fails_iff, <-signaling_missing,
      <-relay_missing in Hfail.
    destruct Hfail as [?|[?|[?|?]]]; congruence. }
  pose proof (rejects_no_call _ _ _ H) as Hn.
  apply rejects_run in H as (Hc & Hw & Ht).
  rewrite Hw. eauto 10.
Qed.

Lemma failed_validation_has_no_effect_witness :
  let w := lobby "3" "12a4" false "" false "" "" "" in
  lobby_page (document w)
  ∧ (player_count_fails (document w) ∨ room_id_fails (document w)
     ∨ signaling_fails (document w) ∨ relay_fails (document w))
  ∧ ((∃ msg, trace_of desktop w = [Alert msg])
     ∧ completion_of desktop w = Normal tt
     ∧ world_after desktop w = w
     ∧ document (world_after desktop w) !! "button-box" = document w !! "button-box"
     ∧ document (world_after desktop w) !! "game-container"
       = document w !! "game-container"
     ∧ start_game_calls (trace_of desktop w) = []).
Proof.
  intros w.
  assert (room_id_fails (document w)) as Hr.
  { apply room_id_fails_iff. reflexivity. }
  split; [apply lobby_page_lobby|]. split; [by right; left|].
  apply (failed_validation_has_no_effect desktop w);
    [apply lobby_page_lobby | by right; left].
Defined.

(** C7. Whatever else is wrong with the form, exactly one message is
    shown, the one of the first check that fails in the order player
    count, room id, signaling override, relay override. *)
Theorem first_failure_is_reported env w :
  lobby_page (document w) →
  let d := document w in
  (player_count_fails d →
   alerts (trace_of env w) = [lit "Please enter a player count between 2 and 8."])
  ∧ (¬ player_count_fails d → room_id_fails d →
     alerts (trace_of env w) = [lit "Invalid room ID."])
  ∧ (¬ player_count_fails d → ¬ room_id_fails d → signaling_fails d →
     alerts (trace_of env w) = [lit "Please enter a Matchbox server URL."])
  ∧ (¬ player_count_fails d → ¬ room_id_fails d → ¬ signaling_fails d →
     relay_fails d →
     alerts (trace_of env w) = [lit "Please enter a STUN/TURN server URL."]).
Proof.
  intros Hp d.
  destruct (rejects_iff env w Hp) as (Hpc & Hroom & Hsig & Hice). fold d in Hpc, Hroom, Hsig, Hice.
  rewrite <-player_count_fails_iff, <-room_id_fails_iff, <-signaling_missing,
    <-relay_missing, !not_true_iff_false.
  repeat split; intros; apply rejects_alerts.
  - by apply Hpc.
  - by apply Hroom.
  - by apply Hsig.
  - by apply Hice.
Qed.

Lemma first_failure_is_reported_witness :
  let w := lobby "1" "12a4" true "  " true "" "user" "secret" in
  lobby_page (document w)
  ∧ (let d := document w in
     (player_count_fails d →
      alerts (trace_of desktop w) = [lit "Please enter a player count between 2 and 8."])
     ∧ (¬ player_count_fails d → room_id_fails d →
        alerts (trace_of desktop w) = [lit "Invalid room ID."])
     ∧ (¬ player_count_fails d → ¬ room_id_fails d → signaling_fails d →
        alerts (trace_of desktop w) = [lit "Please enter a Matchbox server URL."])
     ∧ (¬ player_count_fails d → ¬ room_id_fails d → ¬ signaling_fails d →
        relay_fails d →
        alerts (trace_of desktop w) = [lit "Please enter a STUN/TURN server URL."])).
Proof.
  intros w. split; [apply lobby_page_lobby|].
  apply (first_failure_is_reported desktop w). apply lobby_page_lobby.
Defined.

(** C8. Once player count and room id are passed: with the
    custom-signaling toggle off the signaling check passes whatever the
    URL field holds, and the signaling URL of the configuration is the
    empty string; with the toggle on the form is rejected with "Please
    enter a Matchbox server URL." exactly when the URL field is blank
    after trimming. *)
Theorem signaling_override_validation env w :
  lobby_page (document w) →
  player_count_out_of_range (document w) = false →
  room_id_invalid (document w) = false →
  let d := document w in
  (toggle d "customMatchboxServerCheckbox" = false →
   (lit "Please enter a Matchbox server URL." ∉ alerts (trace_of env w))
   ∧ (∀ c, accepts env w c → signalingServerUrl c = lit "")
   ∧ (ice_url_missing d = false → ∃ c, accepts env w c))
  ∧ (toggle d "customMatchboxServerCheckbox" = true →
     (rejects env w (lit "Please enter a Matchbox server URL.")
      ↔ blank (field d "matchboxServerURL"))).
Proof.
  intros Hp Hc Hr d.
  destruct (rejects_iff env w Hp) as (_ & _ & Hsig & _). fold d in Hsig.
  split.
  - intros Hoff.
    assert (matchbox_url_missing d = false) as Hs.
    { unfold matchbox_url_missing. by rewrite Hoff. }
    split; [|split].
    + rewrite (shown_iff _ _ _ Hp), Hsig, Hs. by intros (_ & _ & ?).
    + intros c (-> & _)%accepts_inv; [|done].
      unfold config_of; cbn [signalingServerUrl]. fold d. by rewrite Hoff.
    + intros Hi. exists (config_of d). by apply startGame_accepts.
  - intros Hon. rewrite Hsig, signaling_missing. unfold signaling_fails. tauto.
Qed.

Lemma signaling_override_validation_witness :
  let w := lobby "3" "" false "wss://stale.example" false "" "" "" in
  lobby_page (document w)
  ∧ player_count_out_of_range (document w) = false
  ∧ room_id_invalid (document w) = false
  ∧ (let d := document w in
     (toggle d "customMatchboxServerCheckbox" = false →
      (lit "Please enter a Matchbox server URL." ∉ alerts (trace_of desktop w))
      ∧ (∀ c, accepts desktop w c → signalingServerUrl c = lit "")
      ∧ (ice_url_missing d = false → ∃ c, accepts desktop w c))
     ∧ (toggle d "customMatchboxServerCheckbox" = true →
        (rejects desktop w (lit "Please enter a Matchbox server URL.")
         ↔ blank (field d "matchboxServerURL")))).
Proof.
  intros w. split; [apply lobby_page_lobby|]. do 2 (split; [reflexivity|]).
  apply (signaling_override_validation desktop w);
    [apply lobby_page_lobby | reflexivity | reflexivity].
Defined.

(** C9. Once player count, room id and signaling override are passed:
    with the relay toggle on and the relay URL blank after trimming the
    form is rejected with "Please enter a STUN/TURN server URL." whatever
    the username and credential fields hold; with the toggle on and the
    URL not blank the form is accepted and the username and credential
    are passed on verbatim, blank or not; with the toggle off the form is
    accepted and the three relay values are the empty string. *)
Theorem relay_override_validation env w :
  lobby_page (document w) →
  player_count_out_of_range (document w) = false →
  room_id_invalid (document w) = false →
  matchbox_url_missing (document w) = false →
  let d := document w in
  (toggle d "customICEServerCheckbox" = true → blank (field d "iceServerURL") →
   rejects env w (lit "Please enter a STUN/TURN server URL."))
  ∧ (toggle d "customICEServerCheckbox" = true → ¬ blank (field d "iceServerURL") →
     ∃ c, accepts env w c
          ∧ relayUsername c = field d "iceServerUsername"
          ∧ relayCredential c = field d "iceServerCredential")
  ∧ (toggle d "customICEServerCheckbox" = false →
     ∃ c, accepts env w c
          ∧ relayServerUrl c = lit "" ∧ relayUsername c = lit ""
          ∧ relayCredential c = lit "").
Proof.
  intros Hp Hc Hr Hs d.
  destruct (rejects_iff env w Hp) as (_ & _ & _ & Hice). fold d in Hice.
  split; [|split].
  - intros Hon Hb. apply Hice. repeat split; try done.
    by apply relay_missing.
  - intros Hon Hb.
    assert (ice_url_missing d = false) as Hi.
    { apply not_true_iff_false. by intros [_ ?]%relay_missing. }
    exists (config_of d). split; [by apply startGame_accepts|].
    unfold config_of; cbn [relayUsername relayCredential]. fold d. by rewrite Hon.
  - intros Hoff.
    assert (ice_url_missing d = false) as Hi.
    { unfold ice_url_missing. by rewrite Hoff. }
    exists (config_of d). split; [by apply startGame_accepts|].
    unfold config_of; cbn [relayServerUrl relayUsername relayCredential].
    fold d. by rewrite Hoff.
Qed.

Lemma relay_override_validation_witness :
  let w := lobby "3" "" false "" true "turn:relay.example" "" "" in
  lobby_page (document w)
  ∧ player_count_out_of_range (document w) = false
  ∧ room_id_invalid (document w) = false
  ∧ matchbox_url_missing (document w) = false
  ∧ (let d := document w in
     (toggle d "customICEServerCheckbox" = true → blank (field d "iceServerURL") →
      rejects desktop w (lit "Please enter a STUN/TURN server URL."))
     ∧ (toggle d "customICEServerCheckbox" = true → ¬ blank (field d "iceServerURL") →
        ∃ c, accepts desktop w c
             ∧ relayUsername c = field d "iceServerUsername"
             ∧ relayCredential c = field d "iceServerCredential")
     ∧ (toggle d "customICEServerCheckbox" = false →
        ∃ c, accepts desktop w c
             ∧ relayServerUrl c = lit "" ∧ relayUsername c = lit ""
             ∧ relayCredential c = lit "")).
Proof.
  intros w. split; [apply lobby_page_lobby|]. do 3 (split; [reflexivity|]).
  apply (relay_override_validation desktop w);
    [apply lobby_page_lobby | reflexivity | reflexivity | reflexivity].
Defined.

(** C10. With an override toggle on, the URL that reaches the
    configuration is the content of the field as it is, not its trimmed
    form: trimming only decides whether the field is blank, so a field
    that is not blank is accepted and passed on with any white space
    around it. *)
Theorem override_urls_are_not_trimmed env w :
  lobby_page (document w) →
  let d := document w in
  (∀ c, accepts env w c →
     (toggle d "customMatchboxServerCheckbox" = true →
      signalingServerUrl c = field d "matchboxServerURL")
     ∧ (toggle d "customICEServerCheckbox" = true →
        relayServerUrl c = field d "iceServerURL"))
  ∧ (player_count_out_of_range d = false →
     room_id_invalid d = false →
     (toggle d "customMatchboxServerCheckbox" = true →
      ¬ blank (field d "matchboxServerURL")) →
     (toggle d "customICEServerCheckbox" = true →
      ¬ blank (field d "iceServerURL")) →
     ∃ c, accepts env w c).
Proof.
  intros Hp d. split.
  - intros c (-> & _)%accepts_inv; [|done].
    unfold config_of; cbn [signalingServerUrl relayServerUrl]. fold d.
    split; by intros ->.
  - intros Hc Hr Hs Hi.
    assert (matchbox_url_missing d = false) as Hs'.
    { apply not_true_iff_false. intros [? ?]%signaling_missing. by apply Hs. }
    assert (ice_url_missing d = false) as Hi'.
    { apply not_true_iff_false. intros [? ?]%relay_missing. by apply Hi. }
    exists (config_of d). by apply startGame_accepts.
Qed.

Lemma override_urls_are_not_trimmed_witness :
  let w := lobby "2" "1234" true "  wss://match.example  "
             true " turn:relay.example " "" "" in
  lobby_page (document w)
  ∧ (∀ c, accepts desktop w c →
       (toggle (document w) "customMatchboxServerCheckbox" = true →
        signalingServerUrl c = lit "  wss://match.example  ")
       ∧ (toggle (document w) "customICEServerCheckbox" = true →
          relayServerUrl c = lit " turn:relay.example "))
  ∧ (player_count_out_of_range (document w) = false →
     room_id_invalid (document w) = false →
     (toggle (document w) "customMatchboxServerCheckbox" = true →
      ¬ blank (field (document w) "matchboxServerURL")) →
     (toggle (document w) "customICEServerCheckbox" = true →
      ¬ blank (field (document w) "iceServerURL")) →
     ∃ c, accepts desktop w c).
Proof.
  intros w. split; [apply lobby_page_lobby|].
  apply (override_urls_are_not_trimmed desktop w). apply lobby_page_lobby.
Defined.

Example padded_urls_run :
  start_game_calls
    (trace_of desktop
       (lobby "2" "1234" true "  wss://match.example  "
          true " turn:relay.example " "" ""))
  = [[VNumber (Number.Int 2); VString (lit "1234");
      VString (lit "  wss://match.example  ");
      VString (lit " turn:relay.example "); VString (lit ""); VString (lit "")]].
Proof. by vm_compute. Qed.

(** C1. On every run in which validation succeeds (no message is
    shown), [start_game] is called once, with six positional values in
    the order player count, room id, signaling URL, relay URL, relay
    username, relay credential: a number followed by five strings.  The
    declaration of [start_game] in the generated bindings has two
    parameters, a string and then a number, so the call does not agree
    with the declared arity and parameter order. *)
Theorem start_game_call_and_declaration env w :
  lobby_page (document w) →
  alerts (trace_of env w) = [] →
  let c := config_of (document w) in
  start_game_calls (trace_of env w)
  = [[VNumber (playerCount c); VString (roomId c);
      VString (signalingServerUrl c); VString (relayServerUrl c);
      VString (relayUsername c); VString (relayCredential c)]]
  ∧ (∀ args, args ∈ start_game_calls (trace_of env w) →
     length args = 6%nat
     ∧ length Bindings.start_game = 2%nat
     ∧ List.map snd Bindings.start_game = [Bindings.TsString; Bindings.TsNumber]
     ∧ List.map Bindings.type_of args
       = [Bindings.TsNumber; Bindings.TsString; Bindings.TsString;
          Bindings.TsString; Bindings.TsString; Bindings.TsString]
     ∧ Bindings.agrees Bindings.start_game args = false).
Proof.
  intros Hp Ha c.
  assert (accepts env w c) as Hacc.
  { destruct (startGame_cases env w Hp) as
      [[_ H]|[(_ & _ & H)|[(_ & _ & _ & H)|[(_ & _ & _ & _ & H)|(_ & _ & _ & _ & H)]]]];
      try done; apply rejects_alerts in H; by rewrite H in Ha. }
  apply accepts_run in Hacc as (_ & _ & Hcall). rewrite Hcall.
  split; [done|].
  intros args ->%list_elem_of_singleton. done.
Qed.

Lemma start_game_call_and_declaration_witness :
  let w := lobby "3" "" false "" false "" "" "" in
  lobby_page (document w)
  ∧ alerts (trace_of desktop w) = []
  ∧ start_game_calls (trace_of desktop w)
    = [[VNumber (Number.Int 3); VString (lit "quick_join");
        VString (lit ""); VString (lit ""); VString (lit ""); VString (lit "")]]
  ∧ (∀ args, args ∈ start_game_calls (trace_of desktop w) →
     length args = 6%nat
     ∧ length Bindings.start_game = 2%nat
     ∧ List.map snd Bindings.start_game = [Bindings.TsString; Bindings.TsNumber]
     ∧ List.map Bindings.type_of args
       = [Bindings.TsNumber; Bindings.TsString; Bindings.TsString;
          Bindings.TsString; Bindings.TsString; Bindings.TsString]
     ∧ Bindings.agrees Bindings.start_game args = false).
Proof.
  intros w. split; [apply lobby_page_lobby|]. split; [by vm_compute|].
  apply (start_game_call_and_declaration desktop w);
    [apply lobby_page_lobby | by vm_compute].
Defined.

(** C3. A player-count field that [parseInt] reads as [NaN] (an empty
    field, or one that starts with no digit) passes the range check, since
    both comparisons with [NaN] are false; when the other checks pass
    too, no message is shown and [start_game] is called with [NaN] as the
    player count, which is not an integer in [2, 8]. *)
Theorem nan_player_count_is_forwarded env w :
  lobby_page (document w) →
  Number.parseInt (field (document w) "numberInput") = Number.NaN →
  room_id_invalid (document w) = false →
  matchbox_url_missing (document w) = false →
  ice_url_missing (document w) = false →
  alerts (trace_of env w) = []
  ∧ ∃ rest, start_game_calls (trace_of env w) = [VNumber Number.NaN :: rest]
            ∧ ¬ ∃ p, VNumber Number.NaN = VNumber (Number.Int p) ∧ 2 ≤ p ≤ 8.
Proof.
  intros Hp Hn Hr Hs Hi.
  pose proof (startGame_accepts env w Hp (player_count_nan _ Hn) Hr Hs Hi) as H.
  apply accepts_run in H as (_ & Ha & Hcall).
  split; [done|]. rewrite Hcall. unfold config_args, config_of at 1.
  cbn [playerCount]. rewrite Hn. eexists. split; [done|]. by intros (p & ? & _).
Qed.

Lemma nan_player_count_is_forwarded_witness :
  let w := lobby "" "" false "" false "" "" "" in
  lobby_page (document w)
  ∧ Number.parseInt (field (document w) "numberInput") = Number.NaN
  ∧ room_id_invalid (document w) = false
  ∧ matchbox_url_missing (document w) = false
  ∧ ice_url_missing (document w) = false
  ∧ alerts (trace_of desktop w) = []
  ∧ ∃ rest, start_game_calls (trace_of desktop w) = [VNumber Number.NaN :: rest]
            ∧ ¬ ∃ p, VNumber Number.NaN = VNumber (Number.Int p) ∧ 2 ≤ p ≤ 8.
Proof.
  intros w. split; [apply lobby_page_lobby|]. do 4 (split; [reflexivity|]).
  apply (nan_player_count_is_forwarded desktop w);
    [apply lobby_page_lobby | reflexivity | reflexivity | reflexivity | reflexivity].
Defined.

(** ** Runs of [start_wasm] *)


Lemma start_wasm_failure w e x :
  is_Some (document w !! "button-box") →
  is_Some (document w !! "game-container") →
  document w !! "error-screen" = Some x →
  includes (message e) (lit "This isn't actually an error!") = false →
  start_wasm (RunThrows e) w
  = (Normal tt,
     {| document :=
          <["error-screen" := Dom.with_attributes (delete "hidden") x]>
            (delete "game-container" (delete "button-box" (document w)));
        wasm_loaded := true |},
     [Call "run" []; ConsoleError e]).
Proof.
  intros [b Hb] [g Hg] Hx H.
  cut (wp (start_wasm (RunThrows e)) w (λ c w' t,
         (c, w', t) = (Normal tt,
     {| document :=
          <["error-screen" := Dom.with_attributes (delete "hidden") x]>
            (delete "game-container" (delete "button-box" (document w)));
        wasm_loaded := true |},
     [Call "run" []; ConsoleError e]))).
  { by intros (c & w' & t & -> & ->)%wp_elim. }
  unfold start_wasm. rewrite H. cbn [negb]. repeat wp_step. done.
Qed.



(** ** Examples *)

Example parseInt_3 : Number.parseInt (lit "3") = Number.Int 3.
Proof. reflexivity. Qed.

Example parseInt_sign_and_tail : Number.parseInt (lit "  -12px") = Number.Int (-12).
Proof. reflexivity. Qed.

Example parseInt_hex : Number.parseInt (lit "0x1F") = Number.Int 31.
Proof. reflexivity. Qed.

Example parseInt_empty : Number.parseInt (lit "") = Number.NaN.
Proof. reflexivity. Qed.

Example parseInt_letters : Number.parseInt (lit "abc") = Number.NaN.
Proof. reflexivity. Qed.

Example to_string_120 : Number.to_string (Number.Int 120) = lit "120".
Proof. reflexivity. Qed.

Example to_string_minus_7 : Number.to_string (Number.Int (-7)) = lit "-7".
Proof. reflexivity. Qed.

Example test_1234 : RoomIdPattern.test (lit "1234") = true.
Proof. reflexivity. Qed.

Example test_12a4 : RoomIdPattern.test (lit "12a4") = false.
Proof. reflexivity. Qed.

Example test_12345 : RoomIdPattern.test (lit "12345") = false.
Proof. reflexivity. Qed.

Example trim_inner_space : trim (lit "  a b  ") = lit "a b".
Proof. reflexivity. Qed.

Example includes_winit_message :
  includes
    (lit "Using exceptions for control flow, don't mind me. This isn't actually an error!")
    (lit "This isn't actually an error!") = true.
Proof. reflexivity. Qed.

(** Three players, no room id, no overrides. *)
Example quick_join_run :
  trace_of desktop (lobby "3" "" false "" false "" "" "")
  = [ConsoleLog (lit "Number of players: 3");
     ConsoleLog (lit "Room ID: quick_join");
     Focus "bevy-canvas";
     Call "start_game"
       [VNumber (Number.Int 3); VString (lit "quick_join"); VString (lit "");
        VString (lit ""); VString (lit ""); VString (lit "")]].
Proof. by vm_compute. Qed.

Example one_player_run :
  trace_of desktop (lobby "1" "" false "" false "" "" "")
  = [Alert (lit "Please enter a player count between 2 and 8.")].
Proof. by vm_compute. Qed.

Example room_12a4_run :
  trace_of desktop (lobby "3" "12a4" false "" false "" "" "")
  = [Alert (lit "Invalid room ID.")].
Proof. by vm_compute. Qed.

Example blank_matchbox_url_run :
  trace_of desktop (lobby "3" "" true "  " false "" "" "")
  = [Alert (lit "Please enter a Matchbox server URL.")].
Proof. by vm_compute. Qed.

Example all_fields_invalid_run :
  trace_of desktop (lobby "1" "12a4" true "  " true "" "user" "secret")
  = [Alert (lit "Please enter a player count between 2 and 8.")].
Proof. by vm_compute. Qed.

Example touch_without_fullscreen_run :
  let env := {| isTouchDevice := true; fullscreenEnabled := false;
                requestFullscreen := false; webkitRequestFullscreen := false;
                msRequestFullscreen := false; layout := id |} in
  let w' := world_after env (lobby "8" "0001" false "" false "" "" "") in
  document w' !! "button-box" = None
  ∧ ((λ e, Dom.attributes e !! "hidden") <$> document w' !! "game-container")
    = Some None
  ∧ ((λ e, bool_decide ("grey" ∈ Dom.classList e))
       <$> document w' !! "button-fullscreen") = Some true
  ∧ (Dom.value <$> document w' !! "controls") = Some [].
Proof. by vm_compute. Qed.

(** On a document without the form, the first member access throws. *)
Example startGame_on_empty_document :
  startGame desktop {| document := ∅; wasm_loaded := true |}
  = (TypeError, {| document := ∅; wasm_loaded := true |}, []).
Proof. reflexivity. Qed.

Example winit_exception_is_swallowed :
  let w := lobby "" "" false "" false "" "" "" in
  (start_wasm
    (RunThrows {| message :=
      lit "Using exceptions for control flow, don't mind me. This isn't actually an error!" |})
    w).2
  = [Call "run" []].
Proof. by vm_compute. Qed.

(** ** Execution on any document *)

Ltac simpl_lookup :=
  cbn [document]; unfold canvasContainer, canvas;
  repeat first [ rewrite lookup_insert_eq
               | rewrite lookup_insert_ne by done
               | rewrite lookup_delete_eq
               | rewrite lookup_delete_ne by done ].

Ltac solve_lookup :=
  cbn [document]; unfold canvasContainer, canvas;
  repeat first [ rewrite lookup_insert_eq
               | rewrite lookup_insert_ne by done
               | rewrite lookup_delete_eq
               | rewrite lookup_delete_ne by done
               | match goal with
                 | H : ?d = <[_ := _]> _ |- context [?d !! _] => is_var d; rewrite H
                 end ];
  first [eassumption | reflexivity].

Lemma wp_member_null {A} (o : option A) w Q :
  o = None → Q TypeError w [] → wp (member o) w Q.
Proof. by intros -> ?. Qed.

(** A step that also follows a member access on [null] and both sides
    of a condition. *)
Ltac wp_any :=
  lazymatch goal with
  | |- wp (member ?o) _ _ =>
      first [ eapply wp_member; [solve_lookup|]
            | eapply wp_member_null; [solve_lookup|]
            | destruct o eqn:? ];
      cbv beta iota zeta
  | |- wp (if ?b then _ else _) _ _ =>
      first [ match goal with
              | H : ?x = _ |- _ =>
                  match b with context [x] => rewrite H; cbn [negb orb andb] end
              end
            | destruct b eqn:? ];
      cbv beta iota zeta
  | |- wp _ _ _ => wp_step
  end.

Lemma wp_run {A} (m : M A) w r :
  wp m w (λ c w' t, (c, w', t) = r) → m w = r.
Proof. by intros (c & w' & t & -> & ->)%wp_elim. Qed.

(** ** The settings panels *)

Lemma toggleCustomMatchboxServerSettings_run w c s :
  document w !! "customMatchboxServerCheckbox" = Some c →
  document w !! "matchboxServerSettings" = Some s →
  toggleCustomMatchboxServerSettings w
  = (Normal tt,
     {| document :=
          <["matchboxServerSettings" :=
              Dom.with_style
                (<["display" := if Dom.checked c then lit "block" else lit "none"]>) s]>
            (document w);
        wasm_loaded := wasm_loaded w |},
     []).
Proof.
  intros Hc Hs. apply wp_run. unfold toggleCustomMatchboxServerSettings.
  repeat wp_any; done.
Qed.

Lemma toggleCustomICEServerSettings_run w c s :
  document w !! "customICEServerCheckbox" = Some c →
  document w !! "ICEServerSettings" = Some s →
  toggleCustomICEServerSettings w
  = (Normal tt,
     {| document :=
          <["ICEServerSettings" :=
              Dom.with_style
                (<["display" := if Dom.checked c then lit "block" else lit "none"]>) s]>
            (document w);
        wasm_loaded := wasm_loaded w |},
     []).
Proof.
  intros Hc Hs. apply wp_run. unfold toggleCustomICEServerSettings.
  repeat wp_any; done.
Qed.

(** The reads and the four checks of [startGame], for a goal whose
    postcondition branches on the conditions of the checks. *)
Ltac run_checks :=
  repeat wp_step;
  match goal with |- wp (if ?C then _ else _) _ _ =>
    wp_check C tt; [by destruct C|]
  end;
  repeat wp_step;
  match goal with
  | |- wp (if negb (strict_eq (trim ?r) ?e) then _ else mret ?q) _ _ =>
    wp_check (negb (strict_eq (trim r) e) && negb (RoomIdPattern.test r))
             (if strict_eq (trim r) e then q else r);
      [by destruct (strict_eq (trim r) e), (RoomIdPattern.test r)|]
  end;
  repeat wp_step;
  match goal with
  | Hx : _ !! "matchboxServerURL" = Some ?x |- wp (if ?b then _ else mret ?q) _ _ =>
    wp_check (b && strict_eq (trim (Dom.value x)) q) (if b then Dom.value x else q);
      [destruct b; [|done]; rewrite (bind_read _ _ _ _ Hx);
       by destruct (strict_eq (trim (Dom.value x)) q)|]
  end;
  repeat wp_step;
  match goal with
  | Hx : _ !! "iceServerURL" = Some ?x, Hy : _ !! "iceServerUsername" = Some ?y,
    Hz : _ !! "iceServerCredential" = Some ?z
    |- wp (if ?b then _ else mret (?q, _, _)) _ _ =>
    wp_check (b && strict_eq (trim (Dom.value x)) q)
             (if b then Dom.value x else q, if b then Dom.value y else q,
              if b then Dom.value z else q);
      [destruct b; [|done];
       rewrite (bind_read _ _ _ _ Hx), (bind_read _ _ _ _ Hy), (bind_read _ _ _ _ Hz);
       by destruct (strict_eq (trim (Dom.value x)) q)|]
  end.

(** ** The accepted run in full *)

Lemma startGame_accepted_run env w :
  lobby_page (document w) →
  player_count_out_of_range (document w) = false →
  room_id_invalid (document w) = false →
  matchbox_url_missing (document w) = false →
  ice_url_missing (document w) = false →
  ∃ w' d1 g,
    startGame env w = (Normal tt, w', accepted_trace env (document w))
    ∧ wasm_loaded w' = wasm_loaded w
    ∧ document w' = layout env d1
    ∧ d1 !! "button-box" = None
    ∧ document w !! "game-container" = Some g
    ∧ d1 !! "game-container" = Some (Dom.with_attributes (delete "hidden") g)
    ∧ (isTouchDevice env = false → d1 !! "controls" = None)
    ∧ (isTouchDevice env = true → d1 !! "controls" = document w !! "controls")
    ∧ (∀ id, id ∉ ["button-box"; "game-container"; "button-fullscreen";
                   "controls"; "canvas-container"] →
             d1 !! id = document w !! id).
Proof.
  intros Hp Hc Hr Hs Hi.
  cut (wp (startGame env) w (λ c w' t,
    let d := document w in
    if player_count_out_of_range d then True
    else if room_id_invalid d then True
    else if matchbox_url_missing d then True
    else if ice_url_missing d then True
    else
      c = Normal tt ∧ t = accepted_trace env d
      ∧ wasm_loaded w' = wasm_loaded w
      ∧ ∃ d1 g, document w' = layout env d1
        ∧ d1 !! "button-box" = None
        ∧ document w !! "game-container" = Some g
        ∧ d1 !! "game-container" = Some (Dom.with_attributes (delete "hidden") g)
        ∧ (isTouchDevice env = false → d1 !! "controls" = None)
        ∧ (isTouchDevice env = true → d1 !! "controls" = document w !! "controls")
        ∧ (∀ id, id ∉ ["button-box"; "game-container"; "button-fullscreen";
                       "controls"; "canvas-container"] →
                 d1 !! id = document w !! id))).
  { intros (c & w' & t & Hrun & Hq)%wp_elim. cbv zeta in Hq.
    rewrite Hc, Hr, Hs, Hi in Hq.
    destruct Hq as (-> & -> & ? & d1 & g & ?). exists w', d1, g. by rewrite Hrun. }
  clear Hc Hr Hs Hi. elements Hp.
  unfold accepted_trace. read_fields. unfold startGame.
  destruct env as [touch fs rfs wrfs mrfs lay]; cbn [isTouchDevice fullscreenEnabled
    requestFullscreen webkitRequestFullscreen msRequestFullscreen layout].
  run_checks.
  repeat wp_step.
  all: split; [done|].
  all: split;
    [by repeat match goal with
               | |- context [Dom.checked ?x] => destruct (Dom.checked x)
               end|].
  all: split; [done|].
  all: cbn [document]; eexists _, _; split; [reflexivity|].
  all: repeat split; try done; simpl_lookup; try done.
  all: intros id Hid; rewrite !not_elem_of_cons in Hid;
    destruct Hid as (? & ? & ? & ? & ? & _); by simpl_lookup.
Qed.

(** ** What a run of [startGame] depends on *)

Lemma same_form_checks d1 d2 :
  same_form d1 d2 →
  player_count_out_of_range d1 = player_count_out_of_range d2
  ∧ room_id_invalid d1 = room_id_invalid d2
  ∧ matchbox_url_missing d1 = matchbox_url_missing d2
  ∧ ice_url_missing d1 = ice_url_missing d2
  ∧ config_of d1 = config_of d2.
Proof.
  intros [Hn Hf].
  assert (∀ id, id ≠ "numberInput" → field d1 id = field d2 id) as Hv
    by (intros id Hid; by apply Hf).
  assert (∀ id, id ≠ "numberInput" → toggle d1 id = toggle d2 id) as Ht
    by (intros id Hid; by apply Hf).
  unfold player_count_out_of_range, room_id_invalid, matchbox_url_missing,
    ice_url_missing, config_of.
  rewrite Hn, !(Hv "roomID"), !(Hv "matchboxServerURL"), !(Hv "iceServerURL"),
    !(Hv "iceServerUsername"), !(Hv "iceServerCredential"),
    !(Ht "customMatchboxServerCheckbox"), !(Ht "customICEServerCheckbox") by done.
  done.
Qed.

Lemma same_fields_form d d' : same_fields d d' → same_form d d'.
Proof.
  intros H.
  assert (∀ id, field d id = field d' id ∧ toggle d id = toggle d' id) as Hf.
  { intros id. specialize (H id). unfold field, toggle.
    destruct (d !! id), (d' !! id); try done. cbn. by destruct H as [-> ->]. }
  split; [by rewrite (proj1 (Hf "numberInput"))|]. intros id _. apply Hf.
Qed.

Lemma same_fields_lobby_page d d' :
  same_fields d d' → lobby_page d → lobby_page d'.
Proof.
  intros H HF. unfold lobby_page. eapply Forall_impl; [exact HF|]. intros id [e He].
  specialize (H id). rewrite He in H. by destruct (d' !! id).
Qed.

Lemma restyled_same_fields d d' : restyled d d' → same_fields d d'.
Proof.
  intros H id. specialize (H id).
  destruct (d !! id), (d' !! id); try done. by destruct H as (_ & ? & ? & _).
Qed.

Lemma restyled_refl d : restyled d d.
Proof. intros id. by destruct (d !! id). Qed.

Lemma same_checks_verdict env1 env2 w1 w2 :
  lobby_page (document w1) →
  lobby_page (document w2) →
  player_count_out_of_range (document w1) = player_count_out_of_range (document w2)
  ∧ room_id_invalid (document w1) = room_id_invalid (document w2)
  ∧ matchbox_url_missing (document w1) = matchbox_url_missing (document w2)
  ∧ ice_url_missing (document w1) = ice_url_missing (document w2)
  ∧ config_of (document w1) = config_of (document w2) →
  alerts (trace_of env1 w1) = alerts (trace_of env2 w2)
  ∧ start_game_calls (trace_of env1 w1) = start_game_calls (trace_of env2 w2).
Proof.
  intros H1 H2 (Hc & Hr & Hs & Hi & Hcfg).
  destruct (startGame_cases env1 w1 H1) as
    [[C1 R1]|[(C1 & V1 & R1)|[(C1 & V1 & S1 & R1)
     |[(C1 & V1 & S1 & I1 & R1)|(C1 & V1 & S1 & I1 & R1)]]]];
  destruct (startGame_cases env2 w2 H2) as
    [[C2 R2]|[(C2 & V2 & R2)|[(C2 & V2 & S2 & R2)
     |[(C2 & V2 & S2 & I2 & R2)|(C2 & V2 & S2 & I2 & R2)]]]];
  try congruence;
  rewrite ?(rejects_alerts _ _ _ R1), ?(rejects_alerts _ _ _ R2),
    ?(rejects_no_call _ _ _ R1), ?(rejects_no_call _ _ _ R2); try done.
  apply accepts_run in R1 as (_ & -> & ->).
  apply accepts_run in R2 as (_ & -> & ->). by rewrite Hcfg.
Qed.

Lemma same_fields_verdict env1 env2 w1 w2 :
  lobby_page (document w1) →
  same_fields (document w1) (document w2) →
  alerts (trace_of env1 w1) = alerts (trace_of env2 w2)
  ∧ start_game_calls (trace_of env1 w1) = start_game_calls (trace_of env2 w2).
Proof.
  intros H1 Hf. apply same_checks_verdict; [done| |].
  - by eapply same_fields_lobby_page.
  - by apply same_form_checks, same_fields_form.
Qed.

(** X1. What a run of [startGame] shows and what it passes to
    [start_game] depends on the form only, and on the player-count field
    only through [parseInt]: two lobby pages whose forms read the same
    give the same messages and the same calls, on any two browsers. *)
Theorem verdict_depends_on_form env1 env2 w1 w2 :
  lobby_page (document w1) →
  lobby_page (document w2) →
  same_form (document w1) (document w2) →
  alerts (trace_of env1 w1) = alerts (trace_of env2 w2)
  ∧ start_game_calls (trace_of env1 w1) = start_game_calls (trace_of env2 w2).
Proof.
  intros H1 H2 Hform.
  apply same_checks_verdict; [done|done|].
  by apply same_form_checks.
Qed.

Lemma verdict_depends_on_form_witness :
  let w1 := lobby "3" "" false "" false "" "" "" in
  let w2 := lobby " +3 players" "" false "" false "" "" "" in
  lobby_page (document w1)
  ∧ lobby_page (document w2)
  ∧ same_form (document w1) (document w2)
  ∧ alerts (trace_of desktop w1) = alerts (trace_of desktop w2)
  ∧ start_game_calls (trace_of desktop w1) = start_game_calls (trace_of desktop w2).
Proof.
  intros w1 w2.
  assert (same_form (document w1) (document w2)) as Hs.
  { split; [reflexivity|]. intros id Hid. unfold field, toggle, w1, w2, lobby.
    cbn [document]. rewrite !(list_to_map_cons _ "numberInput").
    by rewrite !lookup_insert_ne. }
  split; [apply lobby_page_lobby|]. split; [apply lobby_page_lobby|].
  split; [done|].
  apply (verdict_depends_on_form desktop desktop w1 w2);
    [apply lobby_page_lobby | apply lobby_page_lobby | done].
Defined.

Lemma with_style_display_twice v s :
  Dom.with_style (<["display" := v]>) (Dom.with_style (<["display" := v]>) s)
  = Dom.with_style (<["display" := v]>) s.
Proof. unfold Dom.with_style. cbn. by rewrite insert_insert_eq. Qed.

(** X2. [toggleCustomMatchboxServerSettings] makes the Matchbox
    settings panel follow its checkbox: it assigns the panel's [display]
    style "block" when the checkbox is checked and "none" when it is not,
    touches nothing else on the page, shows and logs nothing, and a second
    call changes nothing more. *)
Theorem matchbox_settings_follow_checkbox w c s :
  document w !! "customMatchboxServerCheckbox" = Some c →
  document w !! "matchboxServerSettings" = Some s →
  let r := toggleCustomMatchboxServerSettings w in
  r.1.1 = Normal tt
  ∧ r.2 = []
  ∧ (∃ s', document r.1.2 !! "matchboxServerSettings" = Some s'
           ∧ Dom.style s' !! "display"
             = Some (if Dom.checked c then lit "block" else lit "none")
           ∧ (∀ p, p ≠ "display" → Dom.style s' !! p = Dom.style s !! p)
           ∧ Dom.value s' = Dom.value s ∧ Dom.checked s' = Dom.checked s
           ∧ Dom.attributes s' = Dom.attributes s
           ∧ Dom.classList s' = Dom.classList s)
  ∧ (∀ id, id ≠ "matchboxServerSettings" →
           document r.1.2 !! id = document w !! id)
  ∧ wasm_loaded r.1.2 = wasm_loaded w
  ∧ toggleCustomMatchboxServerSettings r.1.2 = (Normal tt, r.1.2, []).
Proof.
  intros Hc Hs r. subst r.
  rewrite (toggleCustomMatchboxServerSettings_run w c s Hc Hs). cbn [fst snd document wasm_loaded].
  repeat split.
  - eexists. split; [apply lookup_insert_eq|]. cbn.
    split; [apply lookup_insert_eq|]. split; [|done].
    intros p Hp. by rewrite lookup_insert_ne.
  - intros id Hid. by rewrite lookup_insert_ne.
  - erewrite toggleCustomMatchboxServerSettings_run; cbn [document wasm_loaded].
    + by rewrite insert_insert_eq, with_style_display_twice.
    + by rewrite lookup_insert_ne.
    + apply lookup_insert_eq.
Qed.

Lemma matchbox_settings_follow_checkbox_witness :
  let w := lobby_with_panels "2" "" true "" false "" "" "" in
  let c := element [] true false in
  let s := element [] false false in
  document w !! "customMatchboxServerCheckbox" = Some c
  ∧ document w !! "matchboxServerSettings" = Some s
  ∧ (let r := toggleCustomMatchboxServerSettings w in
     r.1.1 = Normal tt
     ∧ r.2 = []
     ∧ (∃ s', document r.1.2 !! "matchboxServerSettings" = Some s'
              ∧ Dom.style s' !! "display"
                = Some (if Dom.checked c then lit "block" else lit "none")
              ∧ (∀ p, p ≠ "display" → Dom.style s' !! p = Dom.style s !! p)
              ∧ Dom.value s' = Dom.value s ∧ Dom.checked s' = Dom.checked s
              ∧ Dom.attributes s' = Dom.attributes s
              ∧ Dom.classList s' = Dom.classList s)
     ∧ (∀ id, id ≠ "matchboxServerSettings" →
              document r.1.2 !! id = document w !! id)
     ∧ wasm_loaded r.1.2 = wasm_loaded w
     ∧ toggleCustomMatchboxServerSettings r.1.2 = (Normal tt, r.1.2, [])).
Proof.
  intros w c s.
  assert (document w !! "customMatchboxServerCheckbox" = Some c) as Hc by (by vm_compute).
  assert (document w !! "matchboxServerSettings" = Some s) as Hs by (by vm_compute).
  split; [done|]. split; [done|].
  apply (matchbox_settings_follow_checkbox w c s); done.
Defined.

(** X3. [toggleCustomICEServerSettings] makes the STUN/TURN settings
    panel follow its checkbox in the same way: "block" when checked,
    "none" when not, nothing else touched, nothing shown or logged, and a
    second call changes nothing more. *)
Theorem ice_settings_follow_checkbox w c s :
  document w !! "customICEServerCheckbox" = Some c →
  document w !! "ICEServerSettings" = Some s →
  let r := toggleCustomICEServerSettings w in
  r.1.1 = Normal tt
  ∧ r.2 = []
  ∧ (∃ s', document r.1.2 !! "ICEServerSettings" = Some s'
           ∧ Dom.style s' !! "display"
             = Some (if Dom.checked c then lit "block" else lit "none")
           ∧ (∀ p, p ≠ "display" → Dom.style s' !! p = Dom.style s !! p)
           ∧ Dom.value s' = Dom.value s ∧ Dom.checked s' = Dom.checked s
           ∧ Dom.attributes s' = Dom.attributes s
           ∧ Dom.classList s' = Dom.classList s)
  ∧ (∀ id, id ≠ "ICEServerSettings" → document r.1.2 !! id = document w !! id)
  ∧ wasm_loaded r.1.2 = wasm_loaded w
  ∧ toggleCustomICEServerSettings r.1.2 = (Normal tt, r.1.2, []).
Proof.
  intros Hc Hs r. subst r.
  rewrite (toggleCustomICEServerSettings_run w c s Hc Hs). cbn [fst snd document wasm_loaded].
  repeat split.
  - eexists. split; [apply lookup_insert_eq|]. cbn.
    split; [apply lookup_insert_eq|]. split; [|done].
    intros p Hp. by rewrite lookup_insert_ne.
  - intros id Hid. by rewrite lookup_insert_ne.
  - erewrite toggleCustomICEServerSettings_run; cbn [document wasm_loaded].
    + by rewrite insert_insert_eq, with_style_display_twice.
    + by rewrite lookup_insert_ne.
    + apply lookup_insert_eq.
Qed.

Lemma ice_settings_follow_checkbox_witness :
  let w := lobby_with_panels "2" "" false "" false "" "" "" in
  let c := element [] false false in
  let s := element [] false false in
  document w !! "customICEServerCheckbox" = Some c
  ∧ document w !! "ICEServerSettings" = Some s
  ∧ (let r := toggleCustomICEServerSettings w in
     r.1.1 = Normal tt
     ∧ r.2 = []
     ∧ (∃ s', document r.1.2 !! "ICEServerSettings" = Some s'
              ∧ Dom.style s' !! "display"
                = Some (if Dom.checked c then lit "block" else lit "none")
              ∧ (∀ p, p ≠ "display" → Dom.style s' !! p = Dom.style s !! p)
              ∧ Dom.value s' = Dom.value s ∧ Dom.checked s' = Dom.checked s
              ∧ Dom.attributes s' = Dom.attributes s
              ∧ Dom.classList s' = Dom.classList s)
     ∧ (∀ id, id ≠ "ICEServerSettings" → document r.1.2 !! id = document w !! id)
     ∧ wasm_loaded r.1.2 = wasm_loaded w
     ∧ toggleCustomICEServerSettings r.1.2 = (Normal tt, r.1.2, [])).
Proof.
  intros w c s.
  assert (document w !! "customICEServerCheckbox" = Some c) as Hc by (by vm_compute).
  assert (document w !! "ICEServerSettings" = Some s) as Hs by (by vm_compute).
  split; [done|]. split; [done|].
  apply (ice_settings_follow_checkbox w c s); done.
Defined.

(** X4. A settings panel's checkbox that is missing makes its toggle
    function throw before anything is changed, and so does a missing
    panel: the toggle functions never change a page they cannot finish
    on. *)
Theorem toggle_without_elements_throws w :
  (document w !! "customMatchboxServerCheckbox" = None
   ∨ document w !! "matchboxServerSettings" = None →
   toggleCustomMatchboxServerSettings w = (TypeError, w, []))
  ∧ (document w !! "customICEServerCheckbox" = None
     ∨ document w !! "ICEServerSettings" = None →
     toggleCustomICEServerSettings w = (TypeError, w, [])).
Proof.
  split; intros [H|H]; apply wp_run;
    unfold toggleCustomMatchboxServerSettings, toggleCustomICEServerSettings;
    repeat wp_any; done.
Qed.

Lemma same_fields_insert d id e e' :
  d !! id = Some e →
  Dom.value e' = Dom.value e → Dom.checked e' = Dom.checked e →
  same_fields d (<[id := e']> d).
Proof.
  intros He Hv Hc id'. destruct (decide (id = id')) as [<-|Hne].
  - by rewrite He, lookup_insert_eq.
  - rewrite lookup_insert_ne by done. by destruct (d !! id').
Qed.

(** X5. Showing or hiding a settings panel does not change what
    [startGame] decides: after either toggle function the lobby page
    gives the same messages and the same call of [start_game] as before
    it. *)
Theorem toggling_keeps_verdict env w :
  lobby_page (document w) →
  is_Some (document w !! "matchboxServerSettings") →
  is_Some (document w !! "ICEServerSettings") →
  (let w' := (toggleCustomMatchboxServerSettings w).1.2 in
   alerts (trace_of env w') = alerts (trace_of env w)
   ∧ start_game_calls (trace_of env w') = start_game_calls (trace_of env w))
  ∧ (let w' := (toggleCustomICEServerSettings w).1.2 in
     alerts (trace_of env w') = alerts (trace_of env w)
     ∧ start_game_calls (trace_of env w') = start_game_calls (trace_of env w)).
Proof.
  intros Hp [s Hs] [i Hi]. pose proof Hp as Hp'. elements Hp'.
  split; intros w'.
  - assert (same_fields (document w) (document w')) as Hf.
    { subst w'. erewrite toggleCustomMatchboxServerSettings_run by eassumption.
      cbn [fst snd document]. by eapply same_fields_insert. }
    by destruct (same_fields_verdict env env w w' Hp Hf) as [-> ->].
  - assert (same_fields (document w) (document w')) as Hf.
    { subst w'. erewrite toggleCustomICEServerSettings_run by eassumption.
      cbn [fst snd document]. by eapply same_fields_insert. }
    by destruct (same_fields_verdict env env w w' Hp Hf) as [-> ->].
Qed.

Lemma toggling_keeps_verdict_witness :
  let w := lobby_with_panels "3" "12a4" true "" false "" "" "" in
  lobby_page (document w)
  ∧ is_Some (document w !! "matchboxServerSettings")
  ∧ is_Some (document w !! "ICEServerSettings")
  ∧ (let w' := (toggleCustomMatchboxServerSettings w).1.2 in
     alerts (trace_of desktop w') = alerts (trace_of desktop w)
     ∧ start_game_calls (trace_of desktop w') = start_game_calls (trace_of desktop w))
  ∧ (let w' := (toggleCustomICEServerSettings w).1.2 in
     alerts (trace_of desktop w') = alerts (trace_of desktop w)
     ∧ start_game_calls (trace_of desktop w') = start_game_calls (trace_of desktop w)).
Proof.
  intros w.
  assert (lobby_page (document w)) as Hp.
  { unfold lobby_page, lobby_ids.
    repeat (apply Forall_cons; split; [apply (bool_decide_unpack _); by vm_compute|]).
    by apply Forall_nil. }
  assert (is_Some (document w !! "matchboxServerSettings")) as Hs
    by (apply (bool_decide_unpack _); by vm_compute).
  assert (is_Some (document w !! "ICEServerSettings")) as Hi
    by (apply (bool_decide_unpack _); by vm_compute).
  do 3 (split; [done|]).
  apply (toggling_keeps_verdict desktop w); done.
Defined.

(** ** The accepted run *)

(** X6. An accepted run of [startGame] switches the page from the lobby
    to the game: the lobby box leaves the document, the game container
    stays and loses its [hidden] attribute, the on-screen controls are
    removed on a device without touch and kept on one with touch, and
    [wasm_loaded] is not touched.  ([updateCanvasContainerSize] only
    restyles elements.) *)
Theorem accepted_run_shows_game env w c :
  lobby_page (document w) →
  (∀ d, restyled d (layout env d)) →
  accepts env w c →
  let d' := document (world_after env w) in
  completion_of env w = Normal tt
  ∧ d' !! "button-box" = None
  ∧ (∃ g, d' !! "game-container" = Some g ∧ Dom.attributes g !! "hidden" = None)
  ∧ (isTouchDevice env = false → d' !! "controls" = None)
  ∧ (isTouchDevice env = true → is_Some (d' !! "controls"))
  ∧ wasm_loaded (world_after env w) = wasm_loaded w.
Proof.
  intros Hp Hl (_ & Hc & Hr & Hs & Hi)%accepts_inv d'; [|done].
  destruct (startGame_accepted_run env w Hp Hc Hr Hs Hi)
    as (w' & d1 & g & Hrun & Hw & Hd & Hb & Hg & Hg' & Hn & Ht & _).
  subst d'. unfold completion_of, world_after. rewrite Hrun. cbn [fst snd].
  rewrite Hd. split; [done|].
  pose proof (Hl d1 "button-box") as Hlb. rewrite Hb in Hlb.
  pose proof (Hl d1 "game-container") as Hlg. rewrite Hg' in Hlg.
  pose proof (Hl d1 "controls") as Hlc.
  split; [by destruct (layout env d1 !! "button-box")|].
  split.
  { destruct (layout env d1 !! "game-container") as [g'|]; [|done].
    destruct Hlg as (Heq & _). exists g'. split; [done|].
    rewrite Heq. { apply lookup_delete_eq. }
    unfold restyled_ids. rewrite !not_elem_of_cons.
    repeat split; try done. apply not_elem_of_nil. }
  split; [|split; [|done]].
  - intros Htouch. rewrite (Hn Htouch) in Hlc.
    by destruct (layout env d1 !! "controls").
  - intros Htouch. rewrite (Ht Htouch) in Hlc.
    pose proof Hp as Hp'. elements Hp'.
    match goal with H : document w !! "controls" = Some _ |- _ => rewrite H in Hlc end.
    by destruct (layout env d1 !! "controls").
Qed.

Lemma accepted_run_shows_game_witness :
  let w := lobby "3" "" false "" false "" "" "" in
  let c := config_of (document w) in
  lobby_page (document w)
  ∧ (∀ d, restyled d (layout desktop d))
  ∧ accepts desktop w c
  ∧ (let d' := document (world_after desktop w) in
     completion_of desktop w = Normal tt
     ∧ d' !! "button-box" = None
     ∧ (∃ g, d' !! "game-container" = Some g ∧ Dom.attributes g !! "hidden" = None)
     ∧ (isTouchDevice desktop = false → d' !! "controls" = None)
     ∧ (isTouchDevice desktop = true → is_Some (d' !! "controls"))
     ∧ wasm_loaded (world_after desktop w) = wasm_loaded w).
Proof.
  intros w c.
  assert (accepts desktop w c) as Ha.
  { apply startGame_accepts; [apply lobby_page_lobby|reflexivity..]. }
  split; [apply lobby_page_lobby|]. split; [apply restyled_refl|]. split; [done|].
  apply (accepted_run_shows_game desktop w c);
    [apply lobby_page_lobby | apply restyled_refl | done].
Defined.

(** Without the lobby box a run of [startGame] cannot get as far as
    the call. *)
Lemma startGame_without_button_box env w :
  document w !! "button-box" = None →
  wp (startGame env) w (λ c w' t, start_game_calls t = [] ∧ w' = w).
Proof. intros Hb. unfold startGame. repeat wp_any; done. Qed.

Lemma startGame_removes_button_box env w c :
  lobby_page (document w) →
  (∀ d, restyled d (layout env d)) →
  accepts env w c →
  document (world_after env w) !! "button-box" = None.
Proof.
  intros Hp Hl (_ & Hc & Hr & Hs & Hi)%accepts_inv; [|done].
  destruct (startGame_accepted_run env w Hp Hc Hr Hs Hi)
    as (w' & d1 & g & Hrun & Hw & Hd & Hb & _).
  unfold world_after. rewrite Hrun. cbn [fst snd]. rewrite Hd.
  pose proof (Hl d1 "button-box") as Hlb. rewrite Hb in Hlb.
  by destruct (layout env d1 !! "button-box").
Qed.

(** X7. On a document without the lobby box, whatever else it holds,
    [startGame] never calls [start_game] and leaves the document as it
    is: it stops at a rejected check or at the missing element. *)
Theorem no_lobby_box_no_start env w :
  document w !! "button-box" = None →
  start_game_calls (trace_of env w) = []
  ∧ world_after env w = w.
Proof.
  intros (c & w' & t & Hrun & ? & ?)%(startGame_without_button_box env)%wp_elim.
  unfold trace_of, world_after. by rewrite Hrun.
Qed.

Lemma no_lobby_box_no_start_witness :
  let w := {| document := delete "button-box"
                (document (lobby "3" "" false "" false "" "" ""));
              wasm_loaded := true |} in
  document w !! "button-box" = None
  ∧ start_game_calls (trace_of desktop w) = []
  ∧ world_after desktop w = w.
Proof.
  intros w. split; [apply lookup_delete_eq|].
  apply (no_lobby_box_no_start desktop w). apply lookup_delete_eq.
Defined.

(** X8. [start_game] is called at most once per page: after an
    accepted run, a second run of [startGame], on any browser, calls
    nothing and changes nothing. *)
Theorem start_game_at_most_once env env' w c :
  lobby_page (document w) →
  (∀ d, restyled d (layout env d)) →
  accepts env w c →
  start_game_calls (trace_of env' (world_after env w)) = []
  ∧ world_after env' (world_after env w) = world_after env w.
Proof.
  intros Hp Hl Ha.
  pose proof (startGame_removes_button_box env w c Hp Hl Ha) as Hb.
  set (w1 := world_after env w) in *.
  apply (startGame_without_button_box env') in Hb.
  apply wp_elim in Hb as (c' & w' & t & Hrun & ? & ?).
  unfold trace_of, world_after. by rewrite Hrun.
Qed.

Lemma start_game_at_most_once_witness :
  let w := lobby "3" "" false "" false "" "" "" in
  let c := config_of (document w) in
  lobby_page (document w)
  ∧ (∀ d, restyled d (layout desktop d))
  ∧ accepts desktop w c
  ∧ start_game_calls (trace_of desktop (world_after desktop w)) = []
  ∧ world_after desktop (world_after desktop w) = world_after desktop w.
Proof.
  intros w c.
  assert (accepts desktop w c) as Ha.
  { apply startGame_accepts; [apply lobby_page_lobby|reflexivity..]. }
  split; [apply lobby_page_lobby|]. split; [apply restyled_refl|]. split; [done|].
  apply (start_game_at_most_once desktop desktop w c);
    [apply lobby_page_lobby | apply restyled_refl | done].
Defined.

(** X9. The error view is final: once [start_wasm] has caught an
    exception of [run()] that is not the control-flow one, [startGame]
    cannot start a match any more; whatever the form holds, it calls
    nothing and changes nothing. *)
Theorem no_start_after_runtime_failure env w e :
  lobby_page (document w) →
  ¬ contains (message e) (lit "This isn't actually an error!") →
  let w' := (start_wasm (RunThrows e) w).1.2 in
  start_game_calls (trace_of env w') = []
  ∧ world_after env w' = w'.
Proof.
  intros Hp Hc w'.
  assert (document w' !! "button-box" = None) as Hb.
  { subst w'. rewrite <-includes_contains, not_true_iff_false in Hc.
    elements Hp. erewrite start_wasm_failure by eauto.
    cbn [fst snd document].
    by rewrite lookup_insert_ne, lookup_delete_ne, lookup_delete_eq. }
  apply (startGame_without_button_box env), wp_elim in Hb
    as (c & w'' & t & Hrun & ? & ?).
  unfold trace_of, world_after. by rewrite Hrun.
Qed.

Lemma no_start_after_runtime_failure_witness :
  let w := lobby "3" "" false "" false "" "" "" in
  let e := {| message := lit "unreachable" |} in
  lobby_page (document w)
  ∧ ¬ contains (message e) (lit "This isn't actually an error!")
  ∧ (let w' := (start_wasm (RunThrows e) w).1.2 in
     start_game_calls (trace_of desktop w') = []
     ∧ world_after desktop w' = w').
Proof.
  intros w e.
  assert (¬ contains (message e) (lit "This isn't actually an error!")) as Hc.
  { rewrite <-includes_contains. by vm_compute. }
  split; [apply lobby_page_lobby|]. split; [done|].
  apply (no_start_after_runtime_failure desktop w e); [apply lobby_page_lobby | done].
Defined.

(** X10. If one of the four form elements that [startGame] always reads
    (the player-count field, the room-id field, the two checkboxes) is
    missing, the run throws at the first missing one, before any check:
    nothing is shown, logged, changed or called. *)
Theorem missing_form_element_throws env w :
  document w !! "numberInput" = None
  ∨ document w !! "roomID" = None
  ∨ document w !! "customMatchboxServerCheckbox" = None
  ∨ document w !! "customICEServerCheckbox" = None →
  startGame env w = (TypeError, w, []).
Proof.
  intros H. apply wp_run. unfold startGame.
  destruct H as [H|[H|[H|H]]]; repeat wp_any; done.
Qed.

Lemma missing_form_element_throws_witness :
  let w := {| document := delete "roomID"
                (document (lobby "1" "" false "" false "" "" ""));
              wasm_loaded := true |} in
  (document w !! "numberInput" = None
   ∨ document w !! "roomID" = None
   ∨ document w !! "customMatchboxServerCheckbox" = None
   ∨ document w !! "customICEServerCheckbox" = None)
  ∧ startGame desktop w = (TypeError, w, []).
Proof.
  intros w.
  assert (document w !! "roomID" = None) as H by apply lookup_delete_eq.
  split; [by right; left|].
  apply (missing_form_element_throws desktop w). by right; left.
Defined.

(** X11. An accepted run logs the configuration with [console.log]:
    always the player count and the room id, the Matchbox URL only with
    its toggle on, and the relay URL, username and credential (in clear)
    only with the relay toggle on; nothing else is logged. *)
Theorem accepted_run_console_logs env w c :
  lobby_page (document w) →
  accepts env w c →
  let d := document w in
  console_logs (trace_of env w)
  = [lit "Number of players: " ++ Number.to_string (playerCount c);
     lit "Room ID: " ++ roomId c]
    ++ (if toggle d "customMatchboxServerCheckbox" then
          [lit "Matchbox server URL: " ++ field d "matchboxServerURL"]
        else [])
    ++ (if toggle d "customICEServerCheckbox" then
          [lit "STUN/TURN server URL: " ++ field d "iceServerURL";
           lit "TURN server username: " ++ field d "iceServerUsername";
           lit "TURN server credential: " ++ field d "iceServerCredential"]
        else []).
Proof.
  intros Hp (-> & Hc & Hr & Hs & Hi)%accepts_inv d; [|done].
  destruct (startGame_accepted_run env w Hp Hc Hr Hs Hi) as (w' & d1 & g & Hrun & _).
  unfold trace_of. rewrite Hrun. cbn [snd]. unfold accepted_trace, config_of.
  cbn [playerCount roomId signalingServerUrl relayServerUrl relayUsername
       relayCredential]. fold d.
  destruct (toggle d "customMatchboxServerCheckbox"),
    (toggle d "customICEServerCheckbox"),
    (isTouchDevice env && fullscreenEnabled env), (requestFullscreen env),
    (webkitRequestFullscreen env), (msRequestFullscreen env); reflexivity.
Qed.

Lemma accepted_run_console_logs_witness :
  let w := lobby "4" "0420" false "" true "turn:relay.example" "ana" "s3cret" in
  let c := config_of (document w) in
  lobby_page (document w)
  ∧ accepts desktop w c
  ∧ console_logs (trace_of desktop w)
    = [lit "Number of players: 4"; lit "Room ID: 0420";
       lit "STUN/TURN server URL: turn:relay.example";
       lit "TURN server username: ana";
       lit "TURN server credential: s3cret"].
Proof.
  intros w c.
  assert (accepts desktop w c) as Ha.
  { apply startGame_accepts; [apply lobby_page_lobby|reflexivity..]. }
  split; [apply lobby_page_lobby|]. split; [done|].
  apply (accepted_run_console_logs desktop w c); [apply lobby_page_lobby | done].
Defined.



(** X13. On a device without touch whose page has no on-screen
    controls, a form that passes every check still leaves the lobby (the
    lobby box is removed and the game container shown) and then throws at
    the missing element: no message is shown and [start_game] is never
    called. *)
Theorem accepted_form_without_controls env w :
  (∀ id, id ∈ lobby_ids → id ≠ "controls" → is_Some (document w !! id)) →
  document w !! "controls" = None →
  isTouchDevice env = false →
  player_count_out_of_range (document w) = false →
  room_id_invalid (document w) = false →
  matchbox_url_missing (document w) = false →
  ice_url_missing (document w) = false →
  completion_of env w = TypeError
  ∧ alerts (trace_of env w) = []
  ∧ start_game_calls (trace_of env w) = []
  ∧ document (world_after env w) !! "button-box" = None
  ∧ ∃ g, document (world_after env w) !! "game-container" = Some g
         ∧ Dom.attributes g !! "hidden" = None.
Proof.
  intros Hp Hk Ht Hc Hr Hs Hi.
  cut (wp (startGame env) w (λ c w' t,
    let d := document w in
    if player_count_out_of_range d then True
    else if room_id_invalid d then True
    else if matchbox_url_missing d then True
    else if ice_url_missing d then True
    else
      c = TypeError ∧ alerts t = [] ∧ start_game_calls t = []
      ∧ document w' !! "button-box" = None
      ∧ ∃ g, document w' !! "game-container" = Some g
             ∧ Dom.attributes g !! "hidden" = None)).
  { intros (c & w' & t & Hrun & Hq)%wp_elim. cbv zeta in Hq.
    rewrite Hc, Hr, Hs, Hi in Hq.
    unfold completion_of, trace_of, world_after. by rewrite Hrun. }
  clear Hc Hr Hs Hi.
  assert (Forall (λ id, is_Some (document w !! id))
            (filter (λ id, id ≠ "controls") lobby_ids)) as Hp'.
  { apply Forall_forall. intros id [? ?]%list_elem_of_filter. by apply Hp. }
  clear Hp. vm_compute filter in Hp'.
  repeat match type of Hp' with
         | Forall _ (_ :: _) => apply Forall_cons in Hp' as [[? ?] Hp']
         end; clear Hp'.
  read_fields. unfold startGame.
  run_checks.
  repeat wp_any.
  repeat match goal with
         | |- context [Dom.checked ?x] => destruct (Dom.checked x)
         end.
  all: repeat split; try done; try by simpl_lookup.
  all: eexists; split; [by simpl_lookup|]; apply lookup_delete_eq.
Qed.

Lemma accepted_form_without_controls_witness :
  let w := {| document := delete "controls"
                (document (lobby "3" "" false "" false "" "" ""));
              wasm_loaded := true |} in
  (∀ id, id ∈ lobby_ids → id ≠ "controls" → is_Some (document w !! id))
  ∧ document w !! "controls" = None
  ∧ isTouchDevice desktop = false
  ∧ player_count_out_of_range (document w) = false
  ∧ room_id_invalid (document w) = false
  ∧ matchbox_url_missing (document w) = false
  ∧ ice_url_missing (document w) = false
  ∧ completion_of desktop w = TypeError
  ∧ alerts (trace_of desktop w) = []
  ∧ start_game_calls (trace_of desktop w) = []
  ∧ document (world_after desktop w) !! "button-box" = None
  ∧ ∃ g, document (world_after desktop w) !! "game-container" = Some g
         ∧ Dom.attributes g !! "hidden" = None.
Proof.
  intros w.
  assert (∀ id, id ∈ lobby_ids → id ≠ "controls" → is_Some (document w !! id)) as Hp.
  { intros id Hid Hne. subst w. cbn [document]. rewrite lookup_delete_ne by done.
    pose proof (lobby_page_lobby "3" "" false "" false "" "" "") as Hl.
    unfold lobby_page in Hl. rewrite Forall_forall in Hl. by apply Hl. }
  assert (document w !! "controls" = None) as Hk by apply lookup_delete_eq.
  split; [done|]. split; [done|]. split; [reflexivity|].
  do 4 (split; [by vm_compute|]).
  apply (accepted_form_without_controls desktop w); try done; by vm_compute.
Defined.

(** ** What [parseInt] reads of the player-count field *)

Lemma digit_value_decimal c :
  (48 ≤ c ≤ 57)%N → Number.digit_value 10 c = Some (Z.of_N c - 48).
Proof.
  intros H. unfold Number.digit_value.
  destruct (N.leb_spec 48 c), (N.leb_spec c 57); try lia. cbn.
  destruct (Z.ltb_spec (Z.of_N c - 48) 10); [done|lia].
Qed.

Lemma digit_value_not_decimal c :
  ¬ (48 ≤ c ≤ 57)%N → Number.digit_value 10 c = None.
Proof.
  intros H. unfold Number.digit_value.
  destruct (N.leb_spec 48 c), (N.leb_spec c 57); try lia; cbn;
    destruct (N.leb_spec 97 c), (N.leb_spec c 122); try lia; cbn;
    try (destruct (Z.ltb_spec (Z.of_N c - 87) 10); [lia|done]);
    destruct (N.leb_spec 65 c), (N.leb_spec c 90); try lia; cbn; try done;
    destruct (Z.ltb_spec (Z.of_N c - 55) 10); done || lia.
Qed.

Lemma parse_digits_tail ds rest acc :
  Forall (λ c, (48 ≤ c ≤ 57)%N) ds →
  (∀ c r, rest = c :: r → ¬ (48 ≤ c ≤ 57)%N) →
  Number.parse_digits 10 (ds ++ rest) acc = Number.parse_digits 10 ds acc.
Proof.
  intros Hd Hr. revert acc. induction Hd as [|c ds Hc Hd IH]; intros acc; cbn.
  - destruct rest as [|c r]; [done|]. cbn.
    by rewrite (digit_value_not_decimal c (Hr c r eq_refl)).
  - rewrite (digit_value_decimal c Hc). apply IH.
Qed.

Lemma decimal_digit_cases c :
  (48 ≤ c ≤ 57)%N →
  c = 48%N ∨ c = 49%N ∨ c = 50%N ∨ c = 51%N ∨ c = 52%N ∨ c = 53%N
  ∨ c = 54%N ∨ c = 55%N ∨ c = 56%N ∨ c = 57%N.
Proof. lia. Qed.

(** A string that starts with a decimal digit, and not with [0x] or
    [0X], is read in radix 10 from its first code unit. *)
Lemma parseInt_decimal c r :
  (48 ≤ c ≤ 57)%N →
  (∀ c2 r2, c = 48%N → r = c2 :: r2 → c2 ≠ 120%N ∧ c2 ≠ 88%N) →
  Number.parseInt (c :: r)
  = match Number.parse_digits 10 (c :: r) None with
    | Some z => Number.Int (1 * z)
    | None => Number.NaN
    end.
Proof.
  intros Hc Hx. unfold Number.parseInt. cbn [trim_start].
  rewrite (digit_not_white_space c Hc).
  destruct (decimal_digit_cases c Hc) as [->|[->|[->|[->|[->|[->|[->|[->|[->| ->]]]]]]]]];
    try reflexivity.
  destruct r as [|c2 r2]; [reflexivity|].
  destruct (Hx c2 r2 eq_refl eq_refl) as [H1 H2].
  destruct c2 as [|p]; [reflexivity|].
  do 7 (destruct p as [p|p|]; try reflexivity); done.
Qed.

Lemma parseInt_trailing_text s rest :
  s ≠ [] →
  Forall (λ c, (48 ≤ c ≤ 57)%N) s →
  (∀ c r, rest = c :: r → ¬ (48 ≤ c ≤ 57)%N ∧ c ≠ 120%N ∧ c ≠ 88%N) →
  Number.parseInt (s ++ rest) = Number.parseInt s.
Proof.
  intros Hs Hd Hr. destruct s as [|c s]; [done|].
  apply Forall_cons in Hd as [Hc Hd].
  rewrite <-app_comm_cons, !parseInt_decimal; try done.
  - rewrite (app_comm_cons s rest c), parse_digits_tail; try done.
    + by apply Forall_cons.
    + intros c' r' ->. by destruct (Hr c' r' eq_refl).
  - intros c2 r2 _ ->. apply Forall_cons in Hd as [? _]. lia.
  - intros c2 r2 _ H. destruct s as [|c' s'].
    + cbn in H. destruct (Hr c2 r2 H) as (_ & ? & ?). done.
    + injection H as -> _. apply Forall_cons in Hd as [? _]. lia.
Qed.

(** X14. The player-count field is read by its leading digits:
    whatever follows them, other than a further digit or the [x] of a
    hexadecimal prefix, is ignored.  A lobby page whose field holds
    decimal digits followed by such text gives the same messages and the
    same call of [start_game] as the page that holds the digits alone. *)
Theorem text_after_player_count_is_ignored env w1 w2 s rest :
  lobby_page (document w1) →
  lobby_page (document w2) →
  field (document w1) "numberInput" = s →
  field (document w2) "numberInput" = s ++ rest →
  s ≠ [] →
  Forall (λ c, (48 ≤ c ≤ 57)%N) s →
  (∀ c r, rest = c :: r → ¬ (48 ≤ c ≤ 57)%N ∧ c ≠ 120%N ∧ c ≠ 88%N) →
  (∀ id, id ≠ "numberInput" →
         field (document w1) id = field (document w2) id
         ∧ toggle (document w1) id = toggle (document w2) id) →
  alerts (trace_of env w2) = alerts (trace_of env w1)
  ∧ start_game_calls (trace_of env w2) = start_game_calls (trace_of env w1).
Proof.
  intros H1 H2 Hf1 Hf2 Hs Hd Hr Hsame.
  assert (same_form (document w1) (document w2)) as Hform.
  { split; [|done]. by rewrite Hf1, Hf2, parseInt_trailing_text. }
  apply same_form_checks in Hform.
  by destruct (same_checks_verdict env env w1 w2 H1 H2 Hform) as [-> ->].
Qed.

Lemma text_after_player_count_is_ignored_witness :
  let w1 := lobby "5" "" false "" false "" "" "" in
  let w2 := lobby "5.9 players" "" false "" false "" "" "" in
  lobby_page (document w1)
  ∧ lobby_page (document w2)
  ∧ field (document w1) "numberInput" = lit "5"
  ∧ field (document w2) "numberInput" = lit "5" ++ lit ".9 players"
  ∧ alerts (trace_of desktop w2) = alerts (trace_of desktop w1)
  ∧ start_game_calls (trace_of desktop w2) = start_game_calls (trace_of desktop w1).
Proof.
  intros w1 w2.
  split; [apply lobby_page_lobby|]. split; [apply lobby_page_lobby|].
  split; [reflexivity|]. split; [reflexivity|].
  apply (text_after_player_count_is_ignored desktop w1 w2 (lit "5") (lit ".9 players"));
    [apply lobby_page_lobby | apply lobby_page_lobby | reflexivity | reflexivity
    | done | | | ].
  - apply Forall_cons. split; [by vm_compute|]. by apply Forall_nil.
  - intros c r H. vm_compute in H. injection H as <- _. lia.
  - intros id Hid. unfold field, toggle, w1, w2, lobby. cbn [document].
    rewrite !(list_to_map_cons _ "numberInput"). by rewrite !lookup_insert_ne.
Defined.

(** ** The canvas layout *)

(** The rules of [wpL], as those of [wp]. *)
Section WpL.
Context {A B : Type}.
Import Layout.

Lemma wpL_bind (m : L A) (k : A → L B) p Q :
  wpL m p (λ c p1 t1,
    match c with
    | Normal a => wpL (k a) p1 (λ c2 p2 t2, Q c2 p2 (t1 ++ t2))
    | Returned => Q Returned p1 t1
    | TypeError => Q TypeError p1 t1
    end) →
  wpL (m ≫= k) p Q.
Proof.
  unfold wpL, mbind, L_bind.
  destruct (m p) as [[[a| |] p1] t1]; try done.
  by destruct (k a p1) as [[c2 p2] t2].
Qed.

Lemma wpL_value (m : L A) p c p' t (Q : Completion A → Page → list Event → Prop) :
  m p = (c, p', t) → Q c p' t → wpL m p Q.
Proof. unfold wpL. by intros ->. Qed.

Lemma wpL_elim (m : L A) p Q :
  wpL m p Q → ∃ c p' t, m p = (c, p', t) ∧ Q c p' t.
Proof. unfold wpL. destruct (m p) as [[c p'] t]. eauto. Qed.

Lemma wpL_lift (m : M A) p Q :
  wp m (world p) (λ c w t, Q c {| world := w; vars := vars p |} t) →
  wpL (lift m) p Q.
Proof. unfold wpL, wp, lift. by destruct (m (world p)) as [[c w] t]. Qed.

End WpL.

Lemma is_Some_true {A} (o : option A) a : o = Some a → bool_decide (is_Some o) = true.
Proof. intros ->. by apply bool_decide_eq_true. Qed.

Lemma is_Some_false {A} (o : option A) : o = None → bool_decide (is_Some o) = false.
Proof. intros ->. apply bool_decide_eq_false. by intros [? ?]. Qed.

(** Names the document after an update, which keeps the goals small. *)
Ltac name_document :=
  try match goal with
  | |- context [ {| document := ?d; wasm_loaded := _ |} ] =>
      lazymatch d with
      | <[_ := _]> _ =>
          let d' := fresh "d" in
          let H := fresh "Hdoc" in
          remember d as d' eqn:H
      end
  end.

(** One step through a block over the page; a variable that holds an
    element is followed on both sides, [null] and not. *)
Ltac l_step :=
  lazymatch goal with
  | |- Layout.wpL (mbind _ _) _ _ => apply wpL_bind
  | |- Layout.wpL (Layout.lift _) _ _ => apply wpL_lift
  | |- Layout.wpL (if bool_decide (is_Some ?o) then _ else _) _ _ =>
      first [ erewrite (is_Some_true o) by solve_lookup
            | rewrite (is_Some_false o) by solve_lookup
            | let H := fresh "Hlookup" in
              destruct o eqn:H;
              [ erewrite (is_Some_true (Some _)) by reflexivity
              | rewrite (is_Some_false None) by reflexivity ] ]
  | |- Layout.wpL (if ?b then _ else _) _ _ =>
      first [ match goal with
              | H : ?x = true |- _ =>
                  match b with context [x] => rewrite H end
              | H : ?x = false |- _ =>
                  match b with context [x] => rewrite H end
              end
            | destruct b eqn:? ]
  | |- Layout.wpL (match ?x with _ => _ end) _ _ =>
      first [ match goal with H : x = _ |- _ => rewrite H end
            | destruct x eqn:? ]
  | |- Layout.wpL (Layout.updateCanvasSize _) _ _ => unfold Layout.updateCanvasSize
  | |- Layout.wpL _ _ _ => eapply wpL_value; [reflexivity|]
  | |- wp (member (match ?x with _ => _ end)) _ _ =>
      let H := fresh "Hlookup" in destruct x eqn:H
  | |- wp _ _ _ => wp_any
  end;
  cbv beta iota zeta;
  cbn [Layout.world Layout.vars document wasm_loaded Layout.isPortrait
       Layout.canvasContainerWidth Layout.canvasContainerHeight Layout.canvas
       Layout.gameContainer Layout.canvasContainer Layout.canvasInnerContainer
       Layout.truthy Layout.undefined negb orb andb];
  name_document.

Lemma elements_of_present d v :
  Layout.elements_of d v → Layout.game_elements d →
  Layout.canvas v = Some "bevy-canvas"
  ∧ Layout.gameContainer v = Some "game-container"
  ∧ Layout.canvasContainer v = Some "canvas-container"
  ∧ Layout.canvasInnerContainer v = Some "canvas-inner-container".
Proof.
  intros (-> & -> & -> & ->) Hd.
  unfold Layout.game_elements, Layout.game_ids in Hd.
  rewrite !Forall_cons in Hd.
  destruct Hd as ([? Hk] & [? Hg] & [? Hc] & [? Hi] & [? Hb] & _).
  cbn. by rewrite Hg, Hc, Hi, Hb.
Qed.

(** [restyled] along the assignments of the layout code. *)
Lemma restyled_style d d1 id e f :
  restyled d d1 → d1 !! id = Some e → id ∈ restyled_ids →
  restyled d (<[id := Dom.with_style f e]> d1).
Proof.
  intros H He Hin id0. specialize (H id0).
  destruct (decide (id0 = id)) as [->|Hne].
  - rewrite lookup_insert_eq. rewrite He in H.
    destruct (d !! id); [|done].
    destruct H as (_ & ? & ? & ? & ?). by repeat split.
  - by rewrite lookup_insert_ne.
Qed.

Lemma restyled_style_attribute d d1 id e v :
  restyled d d1 → d1 !! id = Some e → id ∈ restyled_ids →
  restyled d (<[id := Dom.with_attributes (<["style" := v]>) e]> d1).
Proof.
  intros H He Hin id0. specialize (H id0).
  destruct (decide (id0 = id)) as [->|Hne].
  - rewrite lookup_insert_eq. rewrite He in H.
    destruct (d !! id); [|done].
    destruct H as (_ & ? & ? & ? & Ha). repeat split; try done.
    intros a Hne. cbn. rewrite lookup_insert_ne by done. by apply Ha.
  - by rewrite lookup_insert_ne.
Qed.

Lemma restyled_present d d' id : restyled d d' → is_Some (d !! id) → is_Some (d' !! id).
Proof.
  intros H [e He]. specialize (H id). rewrite He in H.
  by destruct (d' !! id).
Qed.

Lemma restyled_load d d' : restyled d d' → Layout.load d' = Layout.load d.
Proof.
  intros H. unfold Layout.load.
  assert (∀ id, match d' !! id with Some _ => Some id | None => None end
                = match d !! id with Some _ => Some id | None => None end) as Hh.
  { intros id. specialize (H id). by destruct (d !! id), (d' !! id). }
  by rewrite !Hh.
Qed.

Lemma restyled_game_elements d d' :
  restyled d d' → Layout.game_elements d → Layout.game_elements d'.
Proof.
  intros H Hd. eapply Forall_impl; [exact Hd|].
  intros id. by apply restyled_present.
Qed.

Ltac solve_restyled_id :=
  unfold restyled_ids;
  repeat first [ apply list_elem_of_here | apply list_elem_of_further ].

Ltac solve_restyled :=
  repeat match goal with
  | |- restyled ?d ?d => apply restyled_refl
  | |- restyled _ (<[_ := Dom.with_style _ _]> _) =>
      eapply restyled_style;
      [ | solve_lookup | solve_restyled_id ]
  | |- restyled _ (<[_ := Dom.with_attributes _ _]> _) =>
      eapply restyled_style_attribute;
      [ | solve_lookup | solve_restyled_id ]
  | H : ?dk = <[_ := Dom.with_style _ _]> _ |- restyled _ ?dk =>
      rewrite H; eapply restyled_style;
      [ | solve_lookup | solve_restyled_id ]
  | H : ?dk = <[_ := Dom.with_attributes _ _]> _ |- restyled _ ?dk =>
      rewrite H; eapply restyled_style_attribute;
      [ | solve_lookup | solve_restyled_id ]
  end.

Ltac style_lookup :=
  cbn [Dom.style Dom.with_style Dom.attributes Dom.with_attributes];
  repeat first [ rewrite lookup_insert_eq | rewrite lookup_insert_ne by done ];
  first [eassumption | reflexivity].

(** A call on a page that has all of the game's elements. *)
Lemma updateCanvasContainerSize_touch m p :
  let d := document (Layout.world p) in
  Layout.game_elements d → Layout.elements_of d (Layout.vars p) →
  let rem := Number.parseInt (Layout.fontSize m d) in
  let W := Layout.offsetWidth m d "game-container" in
  let H := Layout.offsetHeight m d "game-container" in
  let more := Layout.portraitCanvasContainerIsMoreSquare rem W H in
  ∃ p', Layout.updateCanvasContainerSize m p = (Normal tt, p', [])
    ∧ Layout.isPortrait (Layout.vars p') = Some more
    ∧ Layout.elements_of (document (Layout.world p')) (Layout.vars p')
    ∧ restyled d (document (Layout.world p'))
    ∧ wasm_loaded (Layout.world p') = wasm_loaded (Layout.world p)
    ∧ (∃ c k,
         document (Layout.world p') !! "canvas-container" = Some c
         ∧ document (Layout.world p') !! "controls" = Some k
         ∧ Dom.style c !! "width"
           = Some (Layout.px (if more then Number.Int W
                              else Arith.sub (Number.Int W) (Arith.mul (Number.Int 37) rem)))
         ∧ Dom.style c !! "height"
           = Some (Layout.px (if more then Arith.sub (Number.Int H) (Arith.mul (Number.Int 37) rem)
                              else Number.Int H))
         ∧ Dom.style k !! "width"
           = Some (Layout.px (if more then Number.Int W
                              else Arith.mul (Number.Int 35) rem))
         ∧ Dom.style k !! "height"
           = Some (Layout.px (if more then Arith.mul (Number.Int 35) rem
                              else Number.Int H)))
    ∧ ((∀ b, Layout.isPortrait (Layout.vars p) = Some b → Layout.styled_for b d) →
       Layout.styled_for more (document (Layout.world p')))
    ∧ (∃ e w h,
         document (Layout.world p') !! "bevy-canvas" = Some e
         ∧ Layout.canvasContainerWidth (Layout.vars p') = Some w
         ∧ Layout.canvasContainerHeight (Layout.vars p') = Some h
         ∧ (Dom.attributes e !! "style" = Some (lit "width:" ++ Layout.px (Number.Int w))
            ∨ Dom.attributes e !! "style" = Some (lit "height:" ++ Layout.px (Number.Int h)))).
Proof.
  intros d Hd Hv rem W H more.
  destruct (elements_of_present _ _ Hv Hd) as (Hcv & Hgc & Hcc & Hcic).
  cut (Layout.wpL (Layout.updateCanvasContainerSize m) p (λ c p' t,
    c = Normal tt ∧ t = []
    ∧ Layout.isPortrait (Layout.vars p') = Some more
    ∧ (Layout.canvas (Layout.vars p') = Layout.canvas (Layout.vars p)
       ∧ Layout.gameContainer (Layout.vars p') = Layout.gameContainer (Layout.vars p)
       ∧ Layout.canvasContainer (Layout.vars p') = Layout.canvasContainer (Layout.vars p)
       ∧ Layout.canvasInnerContainer (Layout.vars p') = Layout.canvasInnerContainer (Layout.vars p))
    ∧ restyled d (document (Layout.world p'))
    ∧ wasm_loaded (Layout.world p') = wasm_loaded (Layout.world p)
    ∧ (∃ c k,
         document (Layout.world p') !! "canvas-container" = Some c
         ∧ document (Layout.world p') !! "controls" = Some k
         ∧ Dom.style c !! "width"
           = Some (Layout.px (if more then Number.Int W
                              else Arith.sub (Number.Int W) (Arith.mul (Number.Int 37) rem)))
         ∧ Dom.style c !! "height"
           = Some (Layout.px (if more then Arith.sub (Number.Int H) (Arith.mul (Number.Int 37) rem)
                              else Number.Int H))
         ∧ Dom.style k !! "width"
           = Some (Layout.px (if more then Number.Int W
                              else Arith.mul (Number.Int 35) rem))
         ∧ Dom.style k !! "height"
           = Some (Layout.px (if more then Arith.mul (Number.Int 35) rem
                              else Number.Int H)))
    ∧ ((∀ b, Layout.isPortrait (Layout.vars p) = Some b → Layout.styled_for b d) →
       Layout.styled_for more (document (Layout.world p')))
    ∧ (∃ e w h,
         document (Layout.world p') !! "bevy-canvas" = Some e
         ∧ Layout.canvasContainerWidth (Layout.vars p') = Some w
         ∧ Layout.canvasContainerHeight (Layout.vars p') = Some h
         ∧ (Dom.attributes e !! "style" = Some (lit "width:" ++ Layout.px (Number.Int w))
            ∨ Dom.attributes e !! "style" = Some (lit "height:" ++ Layout.px (Number.Int h)))))).
  { intros (c & p' & t & Hrun & -> & -> & Hip & (E1 & E2 & E3 & E4) & Hre & Q)%wpL_elim.
    exists p'. split; [done|]. split; [done|]. split; [|by split].
    destruct Hv as (V1 & V2 & V3 & V4).
    unfold Layout.elements_of. rewrite (restyled_load _ _ Hre).
    by rewrite E1, E2, E3, E4. }
  clear Hv.
  unfold Layout.game_elements, Layout.game_ids in Hd.
  rewrite !Forall_cons in Hd.
  destruct Hd as ([ek Hk] & [eg Hg] & [ec Hc] & [ei Hi] & [eb Hb] & _).
  destruct p as [w v]. destruct v as [cw ch cv ip gc cc cic].
  cbn [Layout.world Layout.vars Layout.canvas Layout.gameContainer
       Layout.canvasContainer Layout.canvasInnerContainer Layout.isPortrait] in *.
  subst cv gc cc cic d rem W H more.
  destruct (Layout.portraitCanvasContainerIsMoreSquare _ _ _) eqn:Hmore;
    destruct ip as [[|]|];
  unfold Layout.updateCanvasContainerSize;
  match goal with |- Layout.wpL _ _ ?Q => set (post := Q) end;
  repeat l_step; subst post; cbv beta;
  cbn [Layout.world Layout.vars document wasm_loaded Layout.isPortrait
       Layout.canvasContainerWidth Layout.canvasContainerHeight Layout.canvas
       Layout.gameContainer Layout.canvasContainer Layout.canvasInnerContainer].
  all: split; [done|]; split; [done|]; split; [done|]; split; [done|].
  all: split; [solve_restyled|]; split; [done|].
  all: split; [eexists _, _; split; [solve_lookup|]; split; [solve_lookup|];
               repeat split; style_lookup|].
  all: split;
    [ intros Hinv;
      first [ destruct (Hinv _ eq_refl) as (inner & controls & Hi' & Hk' & S1 & S2 & S3 & S4);
              rewrite Hi in Hi'; rewrite Hk in Hk';
              injection Hi' as <-; injection Hk' as <-
            | clear Hinv ];
      eexists _, _; split; [solve_lookup|]; split; [solve_lookup|];
      repeat split; style_lookup
    | eexists _, _, _; split; [solve_lookup|]; split; [done|]; split; [done|];
      first [ left; style_lookup | right; style_lookup ] ].
Qed.

(** A call on any page, however it completes. *)
Lemma updateCanvasContainerSize_frame m p :
  let d := document (Layout.world p) in
  Layout.elements_of d (Layout.vars p) →
  ∃ c p', Layout.updateCanvasContainerSize m p = (c, p', [])
    ∧ (c = TypeError
       ∨ c = Normal tt
         ∧ is_Some (d !! "canvas-container") ∧ is_Some (d !! "bevy-canvas"))
    ∧ restyled d (document (Layout.world p'))
    ∧ wasm_loaded (Layout.world p') = wasm_loaded (Layout.world p)
    ∧ Layout.elements_of (document (Layout.world p')) (Layout.vars p').
Proof.
  intros d Hv.
  cut (Layout.wpL (Layout.updateCanvasContainerSize m) p (λ c p' t,
    t = []
    ∧ (c = TypeError
       ∨ c = Normal tt
         ∧ is_Some (d !! "canvas-container") ∧ is_Some (d !! "bevy-canvas"))
    ∧ restyled d (document (Layout.world p'))
    ∧ wasm_loaded (Layout.world p') = wasm_loaded (Layout.world p)
    ∧ (Layout.canvas (Layout.vars p') = Layout.canvas (Layout.vars p)
       ∧ Layout.gameContainer (Layout.vars p') = Layout.gameContainer (Layout.vars p)
       ∧ Layout.canvasContainer (Layout.vars p') = Layout.canvasContainer (Layout.vars p)
       ∧ Layout.canvasInnerContainer (Layout.vars p') = Layout.canvasInnerContainer (Layout.vars p)))).
  { intros (c & p' & t & Hrun & -> & Hc & Hre & Hw & E1 & E2 & E3 & E4)%wpL_elim.
    exists c, p'. repeat split; try done;
    unfold Layout.elements_of; rewrite (restyled_load _ _ Hre);
    destruct Hv as (V1 & V2 & V3 & V4); congruence. }
  destruct p as [w v]. destruct v as [cw ch cv ip gc cc cic].
  destruct Hv as (V1 & V2 & V3 & V4).
  cbn [Layout.world Layout.vars Layout.canvas Layout.gameContainer
       Layout.canvasContainer Layout.canvasInnerContainer Layout.isPortrait
       Layout.load] in *.
  subst cv gc cc cic d.
  unfold Layout.updateCanvasContainerSize.
  match goal with |- Layout.wpL _ _ ?Q => set (post := Q) end.
  repeat l_step; subst post; cbv beta;
  cbn [Layout.world Layout.vars document wasm_loaded Layout.isPortrait
       Layout.canvasContainerWidth Layout.canvasContainerHeight Layout.canvas
       Layout.gameContainer Layout.canvasContainer Layout.canvasInnerContainer].

  all: split; [done|]; split;
    [ first [ by left | right; split; [done|]; split; by eexists ]
    | split; [solve_restyled|]; done ].
Qed.

(** A call on a page whose controls are gone. *)
Lemma updateCanvasContainerSize_desktop m p e :
  let d := document (Layout.world p) in
  let v := Layout.vars p in
  d !! "controls" = None →
  d !! "bevy-canvas" = Some e →
  is_Some (d !! "canvas-container") →
  Layout.elements_of d v →
  let w := Layout.offsetWidth m d "canvas-container" in
  let h := Layout.offsetHeight m d "canvas-container" in
  Layout.updateCanvasContainerSize m p
  = (Normal tt,
     {| Layout.world :=
          {| document :=
               <["bevy-canvas" :=
                   Dom.with_attributes
                     (<["style" :=
                          if Arith.ratio_gt h w (Layout.offsetHeight m d "bevy-canvas")
                                                (Layout.offsetWidth m d "bevy-canvas")
                          then lit "width:" ++ Layout.px (Number.Int w)
                          else lit "height:" ++ Layout.px (Number.Int h)]>) e]> d;
             wasm_loaded := wasm_loaded (Layout.world p) |};
        Layout.vars :=
          {| Layout.canvasContainerWidth := Some w;
             Layout.canvasContainerHeight := Some h;
             Layout.canvas := Layout.canvas v;
             Layout.isPortrait := Layout.isPortrait v;
             Layout.gameContainer := Layout.gameContainer v;
             Layout.canvasContainer := Layout.canvasContainer v;
             Layout.canvasInnerContainer := Layout.canvasInnerContainer v |} |},
     []).
Proof.
  intros d v Hk Hb [ec Hc] (V1 & V2 & V3 & V4) w h.
  subst d v w h. destruct p as [w0 v0]. destruct v0 as [cw ch cv ip gc cc cic].
  cbn [Layout.world Layout.vars Layout.canvas Layout.gameContainer
       Layout.canvasContainer Layout.canvasInnerContainer Layout.isPortrait
       Layout.load] in *.
  rewrite Hb in V1. rewrite Hc in V3. subst cv cc.
  cbn [Layout.canvas Layout.gameContainer
       Layout.canvasContainer Layout.canvasInnerContainer Layout.isPortrait].
  match goal with |- _ = ?r =>
    cut (Layout.wpL (Layout.updateCanvasContainerSize m)
           {| Layout.world := w0;
              Layout.vars := {| Layout.canvasContainerWidth := cw;
                Layout.canvasContainerHeight := ch;
                Layout.canvas := Some "bevy-canvas"; Layout.isPortrait := ip;
                Layout.gameContainer := gc;
                Layout.canvasContainer := Some "canvas-container";
                Layout.canvasInnerContainer := cic |} |}
           (λ c p' t, (c, p', t) = r))
  end.
  { by intros (c & p' & t & -> & ->)%wpL_elim. }
  unfold Layout.updateCanvasContainerSize.
  match goal with |- Layout.wpL _ _ ?Q => set (post := Q) end.
  repeat l_step; subst post; cbv beta.
  all: subst; try done.

Qed.


Lemma game_page_elements ip :
  Layout.game_elements (document (Layout.world (Layout.game_page ip))).
Proof.
  unfold Layout.game_elements, Layout.game_ids.
  repeat (apply Forall_cons; split; [apply (bool_decide_unpack _); by vm_compute|]).
  by apply Forall_nil.
Qed.

Lemma game_page_vars ip :
  Layout.elements_of (document (Layout.world (Layout.game_page ip)))
    (Layout.vars (Layout.game_page ip)).
Proof. repeat split; by vm_compute. Qed.



(** X16.  With a root font size that reads as zero the page is laid out
    in portrait, whatever the shape of the game container. *)
Theorem zero_font_size_is_portrait m p :
  let d := document (Layout.world p) in
  Layout.game_elements d → Layout.elements_of d (Layout.vars p) →
  Number.parseInt (Layout.fontSize m d) = Number.Int 0 →
  Layout.isPortrait (Layout.vars (Layout.resized m p)) = Some true.
Proof.
  intros d Hd Hv Hr.
  destruct (updateCanvasContainerSize_touch m p Hd Hv) as (p' & Hrun & Hip & _).
  unfold Layout.resized. rewrite Hrun. cbn. rewrite Hip. fold d. rewrite Hr.
  f_equal.
  unfold Layout.portraitCanvasContainerIsMoreSquare, Arith.le, Arith.abs,
    Arith.sub, Arith.mul.
  apply Z.leb_le. lia.
Qed.

Lemma zero_font_size_is_portrait_witness :
  let m := Layout.browser "0px" 800 600 in
  let p := Layout.game_page (Some false) in
  Number.parseInt (Layout.fontSize m (document (Layout.world p))) = Number.Int 0
  ∧ Layout.isPortrait (Layout.vars (Layout.resized m p)) = Some true.
Proof.
  intros m p. split; [by vm_compute|].
  apply (zero_font_size_is_portrait m p).
  - apply game_page_elements.
  - apply game_page_vars.
  - by vm_compute.
Defined.

(** X17.  With a root font size that [parseInt] cannot read, every
    length is NaN, the comparison of the two shapes is false, and the
    page is laid out in landscape. *)
Theorem unreadable_font_size_is_landscape m p :
  let d := document (Layout.world p) in
  Layout.game_elements d → Layout.elements_of d (Layout.vars p) →
  Number.parseInt (Layout.fontSize m d) = Number.NaN →
  Layout.isPortrait (Layout.vars (Layout.resized m p)) = Some false.
Proof.
  intros d Hd Hv Hr.
  destruct (updateCanvasContainerSize_touch m p Hd Hv) as (p' & Hrun & Hip & _).
  unfold Layout.resized. rewrite Hrun. cbn. rewrite Hip. fold d. by rewrite Hr.
Qed.

Lemma unreadable_font_size_is_landscape_witness :
  let m := Layout.browser "medium" 600 800 in
  let p := Layout.game_page (Some true) in
  Number.parseInt (Layout.fontSize m (document (Layout.world p))) = Number.NaN
  ∧ Layout.isPortrait (Layout.vars (Layout.resized m p)) = Some false.
Proof.
  intros m p. split; [by vm_compute|].
  apply (unreadable_font_size_is_landscape m p).
  - apply game_page_elements.
  - apply game_page_vars.
  - by vm_compute.
Defined.

(** X18.  On a page with the game's elements [updateCanvasContainerSize]
    completes normally, reports nothing, remembers both dimensions of
    the canvas container, and leaves a page on which it can run again. *)
Theorem resize_completes m p :
  let d := document (Layout.world p) in
  Layout.game_elements d → Layout.elements_of d (Layout.vars p) →
  let p' := Layout.resized m p in
  Layout.resize_completion m p = Normal tt
  ∧ Layout.resize_trace m p = []
  ∧ is_Some (Layout.canvasContainerWidth (Layout.vars p'))
  ∧ is_Some (Layout.canvasContainerHeight (Layout.vars p'))
  ∧ wasm_loaded (Layout.world p') = wasm_loaded (Layout.world p)
  ∧ Layout.game_elements (document (Layout.world p'))
  ∧ Layout.elements_of (document (Layout.world p')) (Layout.vars p').
Proof.
  intros d Hd Hv.
  destruct (updateCanvasContainerSize_touch m p Hd Hv)
    as (p' & Hrun & _ & Hv' & Hre & Hw & _ & _ & e & w & h & _ & Hcw & Hch & _).
  unfold Layout.resized, Layout.resize_completion, Layout.resize_trace.
  rewrite Hrun. cbn [fst snd]. rewrite Hcw, Hch.
  split; [done|]. split; [done|]. split; [by eexists|]. split; [by eexists|].
  split; [done|]. split; [by eapply restyled_game_elements|done].
Qed.

Lemma resize_completes_witness :
  let m := Layout.browser "16px" 800 600 in
  let p := Layout.game_page None in
  let p' := Layout.resized m p in
  Layout.resize_completion m p = Normal tt
  ∧ Layout.resize_trace m p = []
  ∧ is_Some (Layout.canvasContainerWidth (Layout.vars p'))
  ∧ is_Some (Layout.canvasContainerHeight (Layout.vars p'))
  ∧ wasm_loaded (Layout.world p') = wasm_loaded (Layout.world p)
  ∧ Layout.game_elements (document (Layout.world p'))
  ∧ Layout.elements_of (document (Layout.world p')) (Layout.vars p').
Proof.
  intros m p.
  apply (resize_completes m p); [apply game_page_elements | apply game_page_vars].
Defined.

(** X19.  The style properties of the inner container and of the
    controls agree with [isPortrait] after [updateCanvasContainerSize]
    if they did before; on the first call, when [isPortrait] is still
    undefined, they agree afterwards. *)
Theorem orientation_styles_agree m p :
  let d := document (Layout.world p) in
  Layout.game_elements d → Layout.elements_of d (Layout.vars p) →
  (∀ b, Layout.isPortrait (Layout.vars p) = Some b → Layout.styled_for b d) →
  let p' := Layout.resized m p in
  ∃ b, Layout.isPortrait (Layout.vars p') = Some b
       ∧ Layout.styled_for b (document (Layout.world p')).
Proof.
  intros d Hd Hv Hinv.
  destruct (updateCanvasContainerSize_touch m p Hd Hv)
    as (p' & Hrun & Hip & _ & _ & _ & _ & Hst & _).
  unfold Layout.resized. rewrite Hrun. cbn [fst snd].
  eexists. split; [exact Hip|]. by apply Hst.
Qed.

Lemma orientation_styles_agree_witness :
  let m := Layout.browser "16px" 600 800 in
  let p := Layout.game_page None in
  let p' := Layout.resized m p in
  ∃ b, Layout.isPortrait (Layout.vars p') = Some b
       ∧ Layout.styled_for b (document (Layout.world p')).
Proof.
  intros m p.
  apply (orientation_styles_agree m p);
    [apply game_page_elements | apply game_page_vars | by intros b Hb].
Defined.



(** X21.  After [updateCanvasContainerSize] the canvas carries a
    [style] attribute that fixes one dimension only: its width to the
    remembered width of the canvas container, or its height to the
    remembered height. *)
Theorem canvas_takes_one_dimension m p :
  let d := document (Layout.world p) in
  Layout.game_elements d → Layout.elements_of d (Layout.vars p) →
  let p' := Layout.resized m p in
  ∃ e w h,
    document (Layout.world p') !! "bevy-canvas" = Some e
    ∧ Layout.canvasContainerWidth (Layout.vars p') = Some w
    ∧ Layout.canvasContainerHeight (Layout.vars p') = Some h
    ∧ (Dom.attributes e !! "style" = Some (lit "width:" ++ Layout.px (Number.Int w))
       ∨ Dom.attributes e !! "style" = Some (lit "height:" ++ Layout.px (Number.Int h))).
Proof.
  intros d Hd Hv.
  destruct (updateCanvasContainerSize_touch m p Hd Hv)
    as (p' & Hrun & _ & _ & _ & _ & _ & _ & Hc).
  unfold Layout.resized. by rewrite Hrun.
Qed.

Lemma canvas_takes_one_dimension_witness :
  let m := Layout.browser "16px" 800 600 in
  let p := Layout.game_page None in
  let p' := Layout.resized m p in
  ∃ e w h,
    document (Layout.world p') !! "bevy-canvas" = Some e
    ∧ Layout.canvasContainerWidth (Layout.vars p') = Some w
    ∧ Layout.canvasContainerHeight (Layout.vars p') = Some h
    ∧ (Dom.attributes e !! "style" = Some (lit "width:" ++ Layout.px (Number.Int w))
       ∨ Dom.attributes e !! "style" = Some (lit "height:" ++ Layout.px (Number.Int h))).
Proof.
  intros m p.
  apply (canvas_takes_one_dimension m p);
    [apply game_page_elements | apply game_page_vars].
Defined.

(** X22.  However [updateCanvasContainerSize] completes, it reports
    nothing, adds and removes no element, and changes nothing but style
    properties of the controls and the two canvas containers and the
    [style] attribute of the canvas. *)
Theorem resize_only_restyles m p :
  let d := document (Layout.world p) in
  Layout.elements_of d (Layout.vars p) →
  let p' := Layout.resized m p in
  Layout.resize_trace m p = []
  ∧ restyled d (document (Layout.world p'))
  ∧ wasm_loaded (Layout.world p') = wasm_loaded (Layout.world p)
  ∧ Layout.elements_of (document (Layout.world p')) (Layout.vars p').
Proof.
  intros d Hv.
  destruct (updateCanvasContainerSize_frame m p Hv)
    as (c & p' & Hrun & _ & Hre & Hw & Hv').
  unfold Layout.resized, Layout.resize_trace. by rewrite Hrun.
Qed.

Lemma resize_only_restyles_witness :
  let m := Layout.browser "16px" 800 600 in
  let p := Layout.game_page (Some true) in
  let p' := Layout.resized m p in
  Layout.resize_trace m p = []
  ∧ restyled (document (Layout.world p)) (document (Layout.world p'))
  ∧ wasm_loaded (Layout.world p') = wasm_loaded (Layout.world p)
  ∧ Layout.elements_of (document (Layout.world p')) (Layout.vars p').
Proof.
  intros m p. apply (resize_only_restyles m p), game_page_vars.
Defined.

(** X23.  When the canvas container or the canvas is not in the
    document, so that the script holds [null] for it,
    [updateCanvasContainerSize] throws a TypeError. *)
Theorem resize_without_canvas_throws m p :
  let d := document (Layout.world p) in
  Layout.elements_of d (Layout.vars p) →
  d !! "canvas-container" = None ∨ d !! "bevy-canvas" = None →
  Layout.resize_completion m p = TypeError.
Proof.
  intros d Hv Hnone.
  destruct (updateCanvasContainerSize_frame m p Hv)
    as (c & p' & Hrun & [->|(_ & [? Hc] & [? Hb])] & _).
  - unfold Layout.resize_completion. by rewrite Hrun.
  - fold d in Hc, Hb. destruct Hnone; congruence.
Qed.

Lemma resize_without_canvas_throws_witness :
  let m := Layout.browser "16px" 800 600 in
  let d := delete "bevy-canvas" (document (Layout.world (Layout.game_page None))) in
  let p := {| Layout.world := {| document := d; wasm_loaded := true |};
              Layout.vars := Layout.load d |} in
  d !! "bevy-canvas" = None
  ∧ Layout.resize_completion m p = TypeError.
Proof.
  intros m d p. split; [apply lookup_delete_eq|].
  apply (resize_without_canvas_throws m p).
  - done.
  - right. apply lookup_delete_eq.
Defined.

(** X24.  Without the on-screen controls in the document, as on a
    device without touch input once the game has started,
    [updateCanvasContainerSize] leaves [isPortrait] and every style
    property alone: it remembers the size of the canvas container as
    the browser reports it and gives the canvas that width, when the
    container is relatively higher than the canvas, or else that
    height. *)
Theorem resize_without_controls m p e :
  let d := document (Layout.world p) in
  let v := Layout.vars p in
  d !! "controls" = None →
  d !! "bevy-canvas" = Some e →
  is_Some (d !! "canvas-container") →
  Layout.elements_of d v →
  let w := Layout.offsetWidth m d "canvas-container" in
  let h := Layout.offsetHeight m d "canvas-container" in
  let p' := Layout.resized m p in
  Layout.resize_completion m p = Normal tt
  ∧ Layout.resize_trace m p = []
  ∧ Layout.isPortrait (Layout.vars p') = Layout.isPortrait v
  ∧ Layout.canvasContainerWidth (Layout.vars p') = Some w
  ∧ Layout.canvasContainerHeight (Layout.vars p') = Some h
  ∧ document (Layout.world p')
    = <["bevy-canvas" :=
          Dom.with_attributes
            (<["style" :=
                 if Arith.ratio_gt h w (Layout.offsetHeight m d "bevy-canvas")
                                       (Layout.offsetWidth m d "bevy-canvas")
                 then lit "width:" ++ Layout.px (Number.Int w)
                 else lit "height:" ++ Layout.px (Number.Int h)]>) e]> d.
Proof.
  intros d v Hk Hb Hc Hv w h.
  unfold Layout.resized, Layout.resize_completion, Layout.resize_trace.
  by rewrite (updateCanvasContainerSize_desktop m p e Hk Hb Hc Hv).
Qed.

Lemma resize_without_controls_witness :
  let m := Layout.browser "16px" 800 600 in
  let d := delete "controls" (document (Layout.world (Layout.game_page None))) in
  let p := {| Layout.world := {| document := d; wasm_loaded := true |};
              Layout.vars := Layout.load d |} in
  let p' := Layout.resized m p in
  d !! "controls" = None
  ∧ Layout.resize_completion m p = Normal tt
  ∧ Layout.isPortrait (Layout.vars p') = None
  ∧ Layout.canvasContainerWidth (Layout.vars p') = Some 100
  ∧ Layout.canvasContainerHeight (Layout.vars p') = Some 100
  ∧ ∃ c, document (Layout.world p') !! "bevy-canvas" = Some c
         ∧ Dom.attributes c !! "style" = Some (lit "height:100px").
Proof.
  intros m d p p'.
  assert (d !! "controls" = None) as Hk by apply lookup_delete_eq.
  assert (d !! "bevy-canvas" = Some (element [] false false)) as Hb by by vm_compute.
  assert (is_Some (d !! "canvas-container")) as Hc.
  { apply (bool_decide_unpack _). by vm_compute. }
  destruct (resize_without_controls m p _ Hk Hb Hc) as (R1 & R2 & R3 & R4 & R5 & R6).
  { done. }
  split; [done|]. split; [done|]. split; [done|]. split; [done|]. split; [done|].
  eexists. subst p'. rewrite R6. split; [apply lookup_insert_eq|]. by vm_compute.
Defined.

(** ** The bootstrap on any page *)

(** X25.  Whatever [run()] does and whatever the document holds,
    [start_wasm] sets [wasm_loaded], calls [run] first, and neither
    shows a dialog nor starts a match. *)
Theorem start_wasm_only_runs r w :
  let w' := (start_wasm r w).1.2 in
  let t := (start_wasm r w).2 in
  wasm_loaded w' = true
  ∧ head t = Some (Call "run" [])
  ∧ alerts t = []
  ∧ start_game_calls t = [].
Proof.
  cut (wp (start_wasm r) w (λ c w' t,
    wasm_loaded w' = true ∧ head t = Some (Call "run" [])
    ∧ alerts t = [] ∧ start_game_calls t = [])).
  { intros (c & w' & t & Hrun & Hq)%wp_elim. by rewrite Hrun. }
  unfold start_wasm. destruct r as [|e]; repeat wp_any; done.
Qed.
